(** * Discrete energy and angular momentum of examples/miller.py

    A shallow embedding of the post-processing functions of
    [examples/miller.py]: the two per-interval evaluators
    ([angular_momentum_i], [discrete_total_energy_i]), the two aggregators
    ([discrete_angular_momentum], [discrete_total_energy]) and the two drift
    functions ([delta_angular_momentum], [delta_total_energy]).

    Modelling choices.
    - A numpy float64 is a real number ([R]). Division does not raise, as
      numpy's does not; on a zero divisor numpy returns inf or nan, which
      are outside the model, so every theorem whose content depends on the
      value of a quotient assumes time steps that are not zero
      ([nonzero_steps]).
    - A coordinate vector (a column [q[:, i]]) is a [vec R n_dof]; the array
      [q] of shape [(n_dof, n_frames)] is the list of its columns, so that
      [q.shape[1]] is the length of that list.
    - [time] is a list of reals.
    - The biorbd model is external: it is a record of the three methods the
      script calls. A [biorbd.Model] is a system of rigid bodies, whose
      kinetic energy is quadratic in the velocity and whose angular momentum
      is linear in it; the theorems on the drift use of this that both the
      kinetic energy and the norm of the angular momentum are even in the
      velocity ([even_in_velocity]).
    - Python exceptions are values of [exception]; a computation that may
      raise returns a [result].
    - The aggregators and the drift functions default their rule to
      TRAPEZOIDAL; here the rule is always passed. *)

From Stdlib Require Import Reals Lra ZArith Lia.
From stdpp Require Import base list vector strings.

(** ** Exceptions and the result monad *)

Inductive exception : Type :=
  | NotImplementedError
  | IndexError
  | ValueError.

Inductive result (A : Type) : Type :=
  | Ok (a : A)
  | Raise (e : exception).
Arguments Ok {A} a.
Arguments Raise {A} e.

Definition bind {A B : Type} (c : result A) (k : A -> result B) : result B :=
  match c with
  | Ok a => k a
  | Raise e => Raise e
  end.

Notation "'let*' x ':=' c 'in' k" := (bind c (fun x => k))
  (at level 10, x name, c at level 100, k at level 200).

(** ** Quadrature rules *)

(** The members of [varint.enums.QuadratureRule] the script dispatches on. *)
Inductive QuadratureRule : Type :=
  | MIDPOINT
  | LEFT_APPROXIMATION
  | RIGHT_APPROXIMATION
  | TRAPEZOIDAL.

(** The argument [discrete_approximation] is not checked by Python: it is
    either a member of the enumeration or any other value, kept by its
    printed form. *)
Inductive rule_value : Type :=
  | Member (r : QuadratureRule)
  | NotARule (repr : string).

(** [discrete_approximation == QuadratureRule.X]: a value that is not a
    member is equal to none of them. *)
Definition rule_eqb (v : rule_value) (r : QuadratureRule) : bool :=
  match v, r with
  | Member MIDPOINT, MIDPOINT => true
  | Member LEFT_APPROXIMATION, LEFT_APPROXIMATION => true
  | Member RIGHT_APPROXIMATION, RIGHT_APPROXIMATION => true
  | Member TRAPEZOIDAL, TRAPEZOIDAL => true
  | _, _ => false
  end.

(** ** numpy arithmetic on coordinate vectors *)

Section Arrays.
Context {n : nat}.

(** [a + b] on two arrays of the same shape. *)
Definition vadd (a b : vec R n) : vec R n := vzip_with Rplus a b.

(** [a - b] on two arrays of the same shape. *)
Definition vsub (a b : vec R n) : vec R n := vzip_with Rminus a b.

(** [a / s] with a scalar [s], broadcast over the array. The value on
    [s = 0] stands for nothing numpy computes (it returns inf or nan there):
    the theorems that read it assume [s <> 0]. *)
Definition vdiv (a : vec R n) (s : R) : vec R n := vmap (fun x => Rdiv x s) a.

(** [np.linalg.norm] of a one-dimensional array: the square root of the
    sum of the squares. *)
Definition sum_squares (a : vec R n) : R :=
  foldr (fun x s => (x * x + s)%R) 0%R (vec_to_list a).

Definition norm (a : vec R n) : R := sqrt (sum_squares a).
End Arrays.

(** ** Python indexing *)

(** [l[i]] for an integer [i]: a negative index counts from the end, an
    index out of range raises [IndexError]. *)
Definition getitem {A : Type} (l : list A) (i : Z) : result A :=
  let len := Z.of_nat (length l) in
  let j := if (i <? 0)%Z then (len + i)%Z else i in
  if ((0 <=? j)%Z && (j <? len)%Z)%bool
  then match l !! Z.to_nat j with
       | Some a => Ok a
       | None => Raise IndexError
       end
  else Raise IndexError.

(** [l[i] = x] for a natural [i]: in range it overwrites, out of range it
    raises [IndexError]. *)
Definition setitem {A : Type} (l : list A) (i : nat) (x : A) : result (list A) :=
  if (i <? length l)%nat then Ok (<[i := x]> l) else Raise IndexError.

(** [np.zeros((k, 1))]: a negative dimension raises [ValueError]. The rows
    have one entry each, so the array is kept as the list of these entries. *)
Definition np_zeros (k : Z) : result (list R) :=
  if (k <? 0)%Z then Raise ValueError else Ok (replicate (Z.to_nat k) 0%R).

(** [for i in range(count): acc = body i acc], started at index [i]. *)
Fixpoint for_range {S : Type} (body : nat -> S -> result S)
    (i count : nat) (acc : S) : result S :=
  match count with
  | O => Ok acc
  | Datatypes.S count' =>
      let* acc' := body i acc in
      for_range body (Datatypes.S i) count' acc'
  end.

(** ** The biorbd model *)

Record Model (n_dof : nat) : Type := {
  KineticEnergy : vec R n_dof -> vec R n_dof -> R;
  PotentialEnergy : vec R n_dof -> R;
  (** [angularMomentum(q, qdot).to_array()]: three components. *)
  angularMomentum : vec R n_dof -> vec R n_dof -> vec R 3;
}.
Arguments KineticEnergy {n_dof} _ _ _.
Arguments PotentialEnergy {n_dof} _ _.
Arguments angularMomentum {n_dof} _ _ _.

(** ** The functions of the script *)

Section Miller.
Context {n_dof : nat}.
Abbreviation coords := (vec R n_dof).

Definition angular_momentum_i (biorbd_model : Model n_dof) (q1 q2 : coords)
    (time_step : R) (discrete_approximation : rule_value) : result R :=
  let* q :=
    if rule_eqb discrete_approximation MIDPOINT then
      Ok (vdiv (vadd q1 q2) 2)
    else if rule_eqb discrete_approximation LEFT_APPROXIMATION then
      Ok q1
    else if rule_eqb discrete_approximation RIGHT_APPROXIMATION then
      Ok q2
    else if rule_eqb discrete_approximation TRAPEZOIDAL then
      Ok (vdiv (vadd q1 q2) 2)
    else
      Raise NotImplementedError in
  let qdot := vdiv (vsub q2 q1) time_step in
  Ok (norm (angularMomentum biorbd_model q qdot)).

Definition discrete_angular_momentum (biorbd_model : Model n_dof)
    (q : list coords) (time : list R) (discrete_approximation : rule_value)
    : result (list R) :=
  let n_frames := Z.of_nat (length q) in
  let* angular_momentum := np_zeros (n_frames - 1) in
  for_range
    (fun i angular_momentum =>
       let* q_i := getitem q (Z.of_nat i) in
       let* q_i1 := getitem q (Z.of_nat i + 1) in
       let* t_i1 := getitem time (Z.of_nat i + 1) in
       let* t_i := getitem time (Z.of_nat i) in
       let* v := angular_momentum_i biorbd_model q_i q_i1 (t_i1 - t_i)
                   discrete_approximation in
       setitem angular_momentum i v)
    0 (Z.to_nat (n_frames - 1)) angular_momentum.

Definition delta_angular_momentum (biorbd_model : Model n_dof)
    (q : list coords) (time : list R) (discrete_approximation : rule_value)
    : result R :=
  let* q_0 := getitem q 0 in
  let* q_1 := getitem q 1 in
  let* t_1 := getitem time 1 in
  let* t_0 := getitem time 0 in
  let* discrete_angular_momentum_start :=
    angular_momentum_i biorbd_model q_0 q_1 (t_1 - t_0)
      discrete_approximation in
  let* q_m2 := getitem q (-2) in
  let* q_m1 := getitem q (-1) in
  let* t_m2 := getitem time (-2) in
  let* t_m1 := getitem time (-1) in
  let* discrete_angular_momentum_end :=
    angular_momentum_i biorbd_model q_m2 q_m1 (t_m2 - t_m1)
      discrete_approximation in
  Ok (discrete_angular_momentum_end - discrete_angular_momentum_start)%R.

Definition discrete_total_energy_i (biorbd_model : Model n_dof) (q1 q2 : coords)
    (time_step : R) (discrete_approximation : rule_value) : result R :=
  let* q :=
    if rule_eqb discrete_approximation MIDPOINT then
      Ok (vdiv (vadd q1 q2) 2)
    else if rule_eqb discrete_approximation LEFT_APPROXIMATION then
      Ok q1
    else if rule_eqb discrete_approximation RIGHT_APPROXIMATION then
      Ok q2
    else if rule_eqb discrete_approximation TRAPEZOIDAL then
      Ok (vdiv (vadd q1 q2) 2)
    else
      Raise NotImplementedError in
  let qdot := vdiv (vsub q2 q1) time_step in
  Ok (KineticEnergy biorbd_model q qdot + PotentialEnergy biorbd_model q)%R.

Definition discrete_total_energy (biorbd_model : Model n_dof)
    (q : list coords) (time : list R) (discrete_approximation : rule_value)
    : result (list R) :=
  let n_frames := Z.of_nat (length q) in
  let* discrete_total_energy := np_zeros (n_frames - 1) in
  for_range
    (fun i discrete_total_energy =>
       let* q_i := getitem q (Z.of_nat i) in
       let* q_i1 := getitem q (Z.of_nat i + 1) in
       let* t_i1 := getitem time (Z.of_nat i + 1) in
       let* t_i := getitem time (Z.of_nat i) in
       let* v := discrete_total_energy_i biorbd_model q_i q_i1 (t_i1 - t_i)
                   discrete_approximation in
       setitem discrete_total_energy i v)
    0 (Z.to_nat (n_frames - 1)) discrete_total_energy.

Definition delta_total_energy (biorbd_model : Model n_dof)
    (q : list coords) (time : list R) (discrete_approximation : rule_value)
    : result R :=
  let* q_0 := getitem q 0 in
  let* q_1 := getitem q 1 in
  let* t_1 := getitem time 1 in
  let* t_0 := getitem time 0 in
  let* discrete_total_energy_start :=
    discrete_total_energy_i biorbd_model q_0 q_1 (t_1 - t_0)
      discrete_approximation in
  let* q_m2 := getitem q (-2) in
  let* q_m1 := getitem q (-1) in
  let* t_m2 := getitem time (-2) in
  let* t_m1 := getitem time (-1) in
  let* discrete_total_energy_end :=
    discrete_total_energy_i biorbd_model q_m2 q_m1 (t_m2 - t_m1)
      discrete_approximation in
  Ok (discrete_total_energy_end - discrete_total_energy_start)%R.

(** ** The words of the specification *)

(** The representative coordinate of an interval, by rule. *)
Definition representative_coordinate (r : QuadratureRule) (q1 q2 : coords)
    : coords :=
  match r with
  | MIDPOINT | TRAPEZOIDAL => vdiv (vadd q1 q2) 2
  | LEFT_APPROXIMATION => q1
  | RIGHT_APPROXIMATION => q2
  end.

(** The representative velocity of an interval: the finite difference. *)
Definition representative_velocity (q1 q2 : coords) (dt : R) : coords :=
  vdiv (vsub q2 q1) dt.
(** The sample of interval [i]: an evaluator applied to the consecutive
    pair [(q_i, q_{i+1})] with the time step [t_{i+1} - t_i]. *)
Definition interval_sample (evaluator : coords -> coords -> R -> result R)
    (q : list coords) (time : list R) (i : nat) : result R :=
  match q !! i, q !! S i, time !! i, time !! S i with
  | Some q_i, Some q_i1, Some t_i, Some t_i1 => evaluator q_i q_i1 (t_i1 - t_i)%R
  | _, _, _, _ => Raise IndexError
  end.
End Miller.

(** ** The driver *)

(** [l[:stop]]: a negative [stop] counts from the end; the bounds are
    clipped to the list, so a slice never raises. *)
Definition slice_stop {A : Type} (l : list A) (stop : Z) : list A :=
  let len := Z.of_nat (length l) in
  let stop' := if (stop <? 0)%Z then Z.max 0 (len + stop) else Z.min stop len in
  take (Z.to_nat stop') l.

(** The return statement of [main]. The solve, the pickle file and the JSON
    file are external: the model, the solved coordinates [sol.states["q"]]
    and the times [sol.time] are the arguments. The aggregators are called
    with their default rule. *)
Definition main {n_dof : nat} (model : Model n_dof) (q : list (vec R n_dof))
    (time : list R) : result (list R * list R * list R) :=
  let time_but_last := slice_stop time (-1) in
  let* energy := discrete_total_energy model q time (Member TRAPEZOIDAL) in
  let* angular_momentum :=
    discrete_angular_momentum model q time (Member TRAPEZOIDAL) in
  Ok (time_but_last, energy, angular_momentum).

(** The body of the loop over the solvers in the [__main__] block, after the
    trajectory is loaded again: the four quantities in the order they are
    computed, and the abscissa [time[:-1]] of the first two plots. *)
Definition main_block {n_dof : nat} (model : Model n_dof)
    (q : list (vec R n_dof)) (time : list R)
    : result (list R * list R * list R * R * R) :=
  let* energy := discrete_total_energy model q time (Member TRAPEZOIDAL) in
  let* angular_momentum :=
    discrete_angular_momentum model q time (Member TRAPEZOIDAL) in
  let* delta_energy := delta_total_energy model q time (Member TRAPEZOIDAL) in
  let* delta_am := delta_angular_momentum model q time (Member TRAPEZOIDAL) in
  Ok (slice_stop time (-1), energy, angular_momentum, delta_energy, delta_am).

(** ** Auxiliary notions of the properties *)

(** The loop that the two aggregators share, over any evaluator. *)
Definition interval_loop {n_dof : nat}
    (evaluator : vec R n_dof -> vec R n_dof -> R -> result R)
    (q : list (vec R n_dof)) (time : list R) : result (list R) :=
  let* acc := np_zeros (Z.of_nat (length q) - 1) in
  for_range
    (fun i acc =>
       let* q_i := getitem q (Z.of_nat i) in
       let* q_i1 := getitem q (Z.of_nat i + 1) in
       let* t_i1 := getitem time (Z.of_nat i + 1) in
       let* t_i := getitem time (Z.of_nat i) in
       let* v := evaluator q_i q_i1 (t_i1 - t_i)%R in
       setitem acc i v)
    0 (Z.to_nat (Z.of_nat (length q) - 1)) acc.

(** The computation that the two drift functions share, over any evaluator. *)
Definition end_minus_start {n_dof : nat}
    (evaluator : vec R n_dof -> vec R n_dof -> R -> result R)
    (q : list (vec R n_dof)) (time : list R) : result R :=
  let* q_0 := getitem q 0 in
  let* q_1 := getitem q 1 in
  let* t_1 := getitem time 1 in
  let* t_0 := getitem time 0 in
  let* value_start := evaluator q_0 q_1 (t_1 - t_0)%R in
  let* q_m2 := getitem q (-2) in
  let* q_m1 := getitem q (-1) in
  let* t_m2 := getitem time (-2) in
  let* t_m1 := getitem time (-1) in
  let* value_end := evaluator q_m2 q_m1 (t_m2 - t_m1)%R in
  Ok (value_end - value_start)%R.

(** The rule that reads an interval from its other end. *)
Definition mirror (r : QuadratureRule) : QuadratureRule :=
  match r with
  | MIDPOINT => MIDPOINT
  | LEFT_APPROXIMATION => RIGHT_APPROXIMATION
  | RIGHT_APPROXIMATION => LEFT_APPROXIMATION
  | TRAPEZOIDAL => TRAPEZOIDAL
  end.

(** Times no two consecutive of which are equal: every time step has a
    sign. *)
Definition nonzero_steps (time : list R) : Prop :=
  forall i t_i t_i1,
    time !! i = Some t_i -> time !! S i = Some t_i1 -> t_i1 <> t_i.

(** The zero velocity. *)
Definition at_rest (n_dof : nat) : vec R n_dof := vreplicate n_dof 0%R.

(** A model whose kinetic energy and angular-momentum norm do not change
    when every velocity is negated, as for a system of rigid bodies (a
    kinetic energy quadratic in the velocity, an angular momentum linear in
    it). *)
Definition even_in_velocity {n_dof : nat} (m : Model n_dof) : Prop :=
  forall q qdot : vec R n_dof,
    KineticEnergy m q (vmap Ropp qdot) = KineticEnergy m q qdot /\
    norm (angularMomentum m q (vmap Ropp qdot)) = norm (angularMomentum m q qdot).

(** ** Models and trajectories used in the examples *)

(** A one-degree-of-freedom body: a unit mass whose coordinate is its height
    (gravity 10), carrying a unit flywheel that turns with it. *)
Definition slider : Model 1 := {|
  KineticEnergy := fun _ qdot => (qdot !!! 0%fin * qdot !!! 0%fin / 2)%R;
  PotentialEnergy := fun q => (10 * q !!! 0%fin)%R;
  angularMomentum := fun _ qdot => [# 0%R; 0%R; qdot !!! 0%fin];
|}.

(** Two samples: the coordinate goes from 0 to 1 between times 0 and 1. *)
Definition q_two : list (vec R 1) := [ [# 0%R]; [# 1%R] ].
Definition time_two : list R := [ 0%R; 1%R ].

(** Three samples at times 0, 1, 2 with coordinates 0, 1, 3. *)
Definition q_three : list (vec R 1) := [ [# 0%R]; [# 1%R]; [# 3%R] ].
Definition time_three : list R := [ 0%R; 1%R; 2%R ].

(** Two samples below the origin, at rest. *)
Definition q_low : list (vec R 1) := [ [# (-1)%R]; [# (-1)%R] ].

(** ** Proof automation *)

(** Runs the script on concrete inputs, keeping the real arithmetic symbolic. *)
Ltac run_script := cbv - [Rplus Rminus Rmult Rdiv Rinv Ropp IZR sqrt].

(** Closes the computation of a square root whose value is [c >= 0]. *)
Ltac sqrt_is c :=
  match goal with
  | |- sqrt ?a = _ =>
      replace a with (c * c)%R by (field; lra); rewrite sqrt_square by lra
  end.

(** ** The per-interval evaluators *)

Section Evaluators.
Context {n_dof : nat}.
Implicit Types (m : Model n_dof) (qa qb : vec R n_dof) (dt : R).

(** The dispatch of both evaluators, on a member of the enumeration. *)
Lemma angular_momentum_i_member m qa qb dt r :
  angular_momentum_i m qa qb dt (Member r) =
  Ok (norm (angularMomentum m (representative_coordinate r qa qb)
              (vdiv (vsub qb qa) dt))).
Proof. destruct r; reflexivity. Qed.

Lemma discrete_total_energy_i_member m qa qb dt r :
  discrete_total_energy_i m qa qb dt (Member r) =
  Ok (KineticEnergy m (representative_coordinate r qa qb)
        (vdiv (vsub qb qa) dt)
      + PotentialEnergy m (representative_coordinate r qa qb))%R.
Proof. destruct r; reflexivity. Qed.
End Evaluators.

(** ** Rule dispatch (C1, C2, C5, C6) *)

Section Dispatch.
Context {n_dof : nat}.
Implicit Types (m : Model n_dof) (qa qb : vec R n_dof) (dt : R).

(** C1. Both evaluators hand the model the coordinate [(q1 + q2) / 2] under
    MIDPOINT and under TRAPEZOIDAL, [q1] under LEFT_APPROXIMATION and [q2]
    under RIGHT_APPROXIMATION, whatever the model, the vectors and the time
    step; MIDPOINT and TRAPEZOIDAL therefore give the same coordinate and
    the same outputs. *)
Theorem representative_coordinate_by_rule qa qb dt :
  (forall r, exists qdot, forall m,
     angular_momentum_i m qa qb dt (Member r) =
       Ok (norm (angularMomentum m
                   match r with
                   | MIDPOINT | TRAPEZOIDAL => vdiv (vadd qa qb) 2
                   | LEFT_APPROXIMATION => qa
                   | RIGHT_APPROXIMATION => qb
                   end qdot)) /\
     discrete_total_energy_i m qa qb dt (Member r) =
       Ok (KineticEnergy m
             match r with
             | MIDPOINT | TRAPEZOIDAL => vdiv (vadd qa qb) 2
             | LEFT_APPROXIMATION => qa
             | RIGHT_APPROXIMATION => qb
             end qdot
           + PotentialEnergy m
               match r with
               | MIDPOINT | TRAPEZOIDAL => vdiv (vadd qa qb) 2
               | LEFT_APPROXIMATION => qa
               | RIGHT_APPROXIMATION => qb
               end)%R) /\
  (forall m,
     angular_momentum_i m qa qb dt (Member MIDPOINT) =
       angular_momentum_i m qa qb dt (Member TRAPEZOIDAL) /\
     discrete_total_energy_i m qa qb dt (Member MIDPOINT) =
       discrete_total_energy_i m qa qb dt (Member TRAPEZOIDAL)).
Proof.
  split.
  - intros r. exists (vdiv (vsub qb qa) dt). intros m.
    rewrite angular_momentum_i_member, discrete_total_energy_i_member.
    destruct r; split; reflexivity.
  - intros m. split; reflexivity.
Qed.

(** C2. For each of the four rules both evaluators hand the model the
    velocity [(q2 - q1) / dt]: the same for every rule, next to a
    coordinate that alone depends on the rule. *)
Theorem representative_velocity_all_rules qa qb dt r :
  exists qhat, forall m,
    angular_momentum_i m qa qb dt (Member r) =
      Ok (norm (angularMomentum m qhat (vdiv (vsub qb qa) dt))) /\
    discrete_total_energy_i m qa qb dt (Member r) =
      Ok (KineticEnergy m qhat (vdiv (vsub qb qa) dt)
          + PotentialEnergy m qhat)%R.
Proof.
  exists (representative_coordinate r qa qb). intros m.
  now rewrite angular_momentum_i_member, discrete_total_energy_i_member.
Qed.

(** C5. On a supported rule the total-energy evaluator returns the kinetic
    energy at the representative coordinate and velocity plus the potential
    energy at the representative coordinate, and the angular-momentum
    evaluator returns the Euclidean norm of the angular-momentum vector at
    the representative coordinate and velocity. Both are functions of the
    model, the two vectors, the time step and the rule alone. *)
Theorem evaluators_outputs m qa qb dt r :
  let qhat := representative_coordinate r qa qb in
  let qdot := representative_velocity qa qb dt in
  discrete_total_energy_i m qa qb dt (Member r) =
    Ok (KineticEnergy m qhat qdot + PotentialEnergy m qhat)%R /\
  angular_momentum_i m qa qb dt (Member r) =
    Ok (sqrt (sum_squares (angularMomentum m qhat qdot))).
Proof.
  cbv zeta. split.
  - apply discrete_total_energy_i_member.
  - apply angular_momentum_i_member.
Qed.

(** C6. A value that is none of the four members makes each evaluator raise
    NotImplementedError, whatever the model and the other arguments (nothing
    is computed from them); on each of the four members the evaluators
    return a value and raise nothing. *)
Theorem unsupported_rule_raises m qa qb dt :
  (forall repr,
     angular_momentum_i m qa qb dt (NotARule repr) = Raise NotImplementedError /\
     discrete_total_energy_i m qa qb dt (NotARule repr) = Raise NotImplementedError) /\
  (forall r,
     (exists v, angular_momentum_i m qa qb dt (Member r) = Ok v) /\
     (exists v, discrete_total_energy_i m qa qb dt (Member r) = Ok v)).
Proof.
  split.
  - intros repr. split; reflexivity.
  - intros r. rewrite angular_momentum_i_member, discrete_total_energy_i_member.
    split; eexists; reflexivity.
Qed.
End Dispatch.

(** ** Indexing and the loop *)

Lemma bind_Ok {A B : Type} (c : result A) (k : A -> result B) (b : B) :
  bind c k = Ok b <-> exists a, c = Ok a /\ k a = Ok b.
Proof.
  destruct c as [a|e]; simpl; split.
  - intros H. exists a. auto.
  - intros (a' & [= <-] & H). exact H.
  - discriminate.
  - intros (a' & [=] & _).
Qed.

Lemma getitem_lookup {A : Type} (l : list A) (i : nat) (a : A) :
  l !! i = Some a -> getitem l (Z.of_nat i) = Ok a.
Proof.
  intros H. pose proof (lookup_lt_Some _ _ _ H) as Hlt.
  unfold getitem.
  replace (Z.of_nat i <? 0)%Z with false by (symmetry; apply Z.ltb_ge; lia).
  replace (0 <=? Z.of_nat i)%Z with true by (symmetry; apply Z.leb_le; lia).
  replace (Z.of_nat i <? Z.of_nat (length l))%Z with true
    by (symmetry; apply Z.ltb_lt; lia).
  simpl. rewrite Nat2Z.id, H. reflexivity.
Qed.

Lemma getitem_lookup_succ {A : Type} (l : list A) (i : nat) (a : A) :
  l !! S i = Some a -> getitem l (Z.of_nat i + 1) = Ok a.
Proof.
  intros H. replace (Z.of_nat i + 1)%Z with (Z.of_nat (S i)) by lia.
  now apply getitem_lookup.
Qed.

(** The index [-k] of a list of length [n >= k] is the index [n - k]. *)
Lemma getitem_from_end {A : Type} (l : list A) (k : nat) (a : A) :
  (0 < k <= length l)%nat -> l !! (length l - k)%nat = Some a ->
  getitem l (- Z.of_nat k) = Ok a.
Proof.
  intros Hk H. unfold getitem.
  replace (- Z.of_nat k <? 0)%Z with true by (symmetry; apply Z.ltb_lt; lia).
  replace (0 <=? Z.of_nat (length l) + - Z.of_nat k)%Z with true
    by (symmetry; apply Z.leb_le; lia).
  replace (Z.of_nat (length l) + - Z.of_nat k <? Z.of_nat (length l))%Z with true
    by (symmetry; apply Z.ltb_lt; lia).
  simpl.
  replace (Z.to_nat (Z.of_nat (length l) + - Z.of_nat k)) with (length l - k)%nat
    by lia.
  rewrite H. reflexivity.
Qed.

Lemma getitem_out_of_range {A : Type} (l : list A) (i : Z) :
  (Z.of_nat (length l) <= i \/ i < - Z.of_nat (length l))%Z ->
  getitem l i = Raise IndexError.
Proof.
  intros H. unfold getitem.
  destruct (i <? 0)%Z eqn:Hneg.
  - apply Z.ltb_lt in Hneg.
    destruct (0 <=? Z.of_nat (length l) + i)%Z eqn:Hlo; [|reflexivity].
    apply Z.leb_le in Hlo. lia.
  - apply Z.ltb_ge in Hneg.
    destruct (i <? Z.of_nat (length l))%Z eqn:Hhi.
    + apply Z.ltb_lt in Hhi. lia.
    + now rewrite andb_false_r.
Qed.

(** A loop whose body writes [h i] at index [i] of an array of [bound]
    entries fills the entries from [i] on and leaves the earlier ones. *)
Lemma for_range_fill (body : nat -> list R -> result (list R)) (h : nat -> R)
    (bound : nat) :
  (forall i acc, (i < bound)%nat -> length acc = bound ->
     body i acc = Ok (<[i := h i]> acc)) ->
  forall count i acc, (i + count = bound)%nat -> length acc = bound ->
  exists out,
    for_range body i count acc = Ok out /\
    length out = bound /\
    (forall j, (i <= j < bound)%nat -> out !! j = Some (h j)) /\
    (forall j, (j < i)%nat -> out !! j = acc !! j).
Proof.
  intros Hbody count. induction count as [|count IH]; intros i acc Hi Hlen.
  - exists acc. simpl. repeat split; auto. intros j Hj. lia.
  - simpl. rewrite Hbody by lia. simpl.
    destruct (IH (S i) (<[i := h i]> acc)) as (out & Hrun & Hout & Hnew & Hold).
    + lia.
    + now rewrite length_insert.
    + exists out. split; [exact Hrun|]. split; [exact Hout|]. split.
      * intros j Hj. destruct (decide (j = i)) as [->|Hne].
        -- rewrite Hold by lia. apply list_lookup_insert_eq. lia.
        -- apply Hnew. lia.
      * intros j Hj. rewrite Hold by lia.
        apply list_lookup_insert_ne. lia.
Qed.

(** A loop whose body keeps a property of the array keeps it to the end. *)
Lemma for_range_invariant {S : Type} (P : S -> Prop)
    (body : nat -> S -> result S) :
  (forall i acc acc', P acc -> body i acc = Ok acc' -> P acc') ->
  forall count i acc out,
    P acc -> for_range body i count acc = Ok out -> P out.
Proof.
  intros Hbody count. induction count as [|count IH]; intros i acc out HP Hrun.
  - simpl in Hrun. now injection Hrun as <-.
  - simpl in Hrun. apply bind_Ok in Hrun as (acc' & Hstep & Hrest).
    eapply IH; [|exact Hrest]. eapply Hbody; eauto.
Qed.

(** ** The aggregators (C4) *)

Section Aggregators.
Context {n_dof : nat}.
Implicit Types (m : Model n_dof) (q : list (vec R n_dof)) (time : list R).

(** The loop shared by the two aggregators, over an evaluator that returns
    a value on every interval: it fills an array of [N - 1] zeros with the
    samples of the intervals, in index order. *)
Lemma loop_over_intervals (evaluator : vec R n_dof -> vec R n_dof -> R -> result R)
    q time :
  (forall qa qb dt, exists v, evaluator qa qb dt = Ok v) ->
  (1 <= length q)%nat -> length time = length q ->
  exists out,
    (let* acc := np_zeros (Z.of_nat (length q) - 1) in
     for_range
       (fun i acc =>
          let* q_i := getitem q (Z.of_nat i) in
          let* q_i1 := getitem q (Z.of_nat i + 1) in
          let* t_i1 := getitem time (Z.of_nat i + 1) in
          let* t_i := getitem time (Z.of_nat i) in
          let* v := evaluator q_i q_i1 (t_i1 - t_i)%R in
          setitem acc i v)
       0 (Z.to_nat (Z.of_nat (length q) - 1)) acc) = Ok out /\
    length out = (length q - 1)%nat /\
    (forall i, (i < length q - 1)%nat ->
       exists v, interval_sample evaluator q time i = Ok v /\ out !! i = Some v).
Proof.
  intros Htotal Hq Htime.
  set (h := fun i => match interval_sample evaluator q time i with
                     | Ok v => v
                     | Raise _ => 0%R
                     end).
  unfold np_zeros.
  replace (Z.of_nat (length q) - 1 <? 0)%Z with false
    by (symmetry; apply Z.ltb_ge; lia).
  replace (Z.to_nat (Z.of_nat (length q) - 1)) with (length q - 1)%nat by lia.
  cbn [bind].
  assert (Hsample : forall i, (i < length q - 1)%nat ->
            exists q_i q_i1 t_i t_i1,
              q !! i = Some q_i /\ q !! S i = Some q_i1 /\
              time !! i = Some t_i /\ time !! S i = Some t_i1 /\
              evaluator q_i q_i1 (t_i1 - t_i)%R = Ok (h i)).
  { intros i Hi.
    destruct (lookup_lt_is_Some_2 q i) as [q_i Hq_i]; [lia|].
    destruct (lookup_lt_is_Some_2 q (S i)) as [q_i1 Hq_i1]; [lia|].
    destruct (lookup_lt_is_Some_2 time i) as [t_i Ht_i]; [lia|].
    destruct (lookup_lt_is_Some_2 time (S i)) as [t_i1 Ht_i1]; [lia|].
    exists q_i, q_i1, t_i, t_i1. repeat (split; [assumption|]).
    unfold h, interval_sample. rewrite Hq_i, Hq_i1, Ht_i, Ht_i1.
    destruct (Htotal q_i q_i1 (t_i1 - t_i)%R) as [v ->]. reflexivity. }
  set (body := fun (i : nat) (acc : list R) =>
                 let* q_i := getitem q (Z.of_nat i) in
                 let* q_i1 := getitem q (Z.of_nat i + 1) in
                 let* t_i1 := getitem time (Z.of_nat i + 1) in
                 let* t_i := getitem time (Z.of_nat i) in
                 let* v := evaluator q_i q_i1 (t_i1 - t_i)%R in
                 setitem acc i v).
  assert (Hbody : forall i acc, (i < length q - 1)%nat ->
            length acc = (length q - 1)%nat ->
            body i acc = Ok (<[i := h i]> acc)).
  { intros i acc Hi Hacc. unfold body.
    destruct (Hsample i Hi) as (q_i & q_i1 & t_i & t_i1 & H1 & H2 & H3 & H4 & H5).
    rewrite (getitem_lookup _ _ _ H1), (getitem_lookup_succ _ _ _ H2),
      (getitem_lookup_succ _ _ _ H4), (getitem_lookup _ _ _ H3).
    cbn [bind]. rewrite H5. cbn [bind]. unfold setitem.
    replace (i <? length acc)%nat with true
      by (symmetry; apply Nat.ltb_lt; lia).
    reflexivity. }
  destruct (for_range_fill body h (length q - 1)%nat Hbody
              (length q - 1)%nat 0%nat (replicate (length q - 1) 0%R))
    as (out & Hrun & Hlen & Hnew & _).
  - lia.
  - apply length_replicate.
  - exists out. split; [exact Hrun|]. split; [exact Hlen|].
    intros i Hi. exists (h i). split.
    + destruct (Hsample i Hi) as (q_i & q_i1 & t_i & t_i1 & H1 & H2 & H3 & H4 & H5).
      unfold interval_sample. now rewrite H1, H2, H3, H4.
    + apply Hnew. lia.
Qed.
(** C4. On a trajectory of [N >= 2] samples with as many times, and a
    supported rule, each aggregator returns [N - 1] values, and the value at
    index [i] is the evaluator applied to [(q_i, q_{i+1})] with the time step
    [t_{i+1} - t_i]: the output follows the order of the intervals. *)
Theorem aggregators_interval_values m q time r :
  (2 <= length q)%nat -> length time = length q ->
  exists energy momentum,
    discrete_total_energy m q time (Member r) = Ok energy /\
    discrete_angular_momentum m q time (Member r) = Ok momentum /\
    length energy = (length q - 1)%nat /\
    length momentum = (length q - 1)%nat /\
    (forall i q_i q_i1 t_i t_i1,
       q !! i = Some q_i -> q !! S i = Some q_i1 ->
       time !! i = Some t_i -> time !! S i = Some t_i1 ->
       (exists e,
          discrete_total_energy_i m q_i q_i1 (t_i1 - t_i)%R (Member r) = Ok e /\
          energy !! i = Some e) /\
       (exists a,
          angular_momentum_i m q_i q_i1 (t_i1 - t_i)%R (Member r) = Ok a /\
          momentum !! i = Some a)).
Proof.
  intros Hq Htime.
  destruct (loop_over_intervals
              (fun qa qb dt => discrete_total_energy_i m qa qb dt (Member r))
              q time) as (energy & He & Hle & Hes); [|lia|exact Htime|].
  { intros qa qb dt. rewrite discrete_total_energy_i_member. eauto. }
  destruct (loop_over_intervals
              (fun qa qb dt => angular_momentum_i m qa qb dt (Member r))
              q time) as (momentum & Ha & Hla & Has); [|lia|exact Htime|].
  { intros qa qb dt. rewrite angular_momentum_i_member. eauto. }
  exists energy, momentum.
  split; [exact He|]. split; [exact Ha|]. split; [exact Hle|]. split; [exact Hla|].
  intros i q_i q_i1 t_i t_i1 H1 H2 H3 H4.
  assert (Hi : (i < length q - 1)%nat).
  { apply lookup_lt_Some in H2. lia. }
  split.
  - destruct (Hes i Hi) as (e & Hs & Hout). exists e. split; [|exact Hout].
    unfold interval_sample in Hs. now rewrite H1, H2, H3, H4 in Hs.
  - destruct (Has i Hi) as (a & Hs & Hout). exists a. split; [|exact Hout].
    unfold interval_sample in Hs. now rewrite H1, H2, H3, H4 in Hs.
Qed.
End Aggregators.

(** The theorem at a trajectory of three samples of the slider. *)
Lemma aggregators_interval_values_witness :
  exists energy momentum,
    discrete_total_energy slider q_three time_three (Member TRAPEZOIDAL) = Ok energy /\
    discrete_angular_momentum slider q_three time_three (Member TRAPEZOIDAL)
      = Ok momentum /\
    length energy = (length q_three - 1)%nat /\
    length momentum = (length q_three - 1)%nat /\
    (forall i q_i q_i1 t_i t_i1,
       q_three !! i = Some q_i -> q_three !! S i = Some q_i1 ->
       time_three !! i = Some t_i -> time_three !! S i = Some t_i1 ->
       (exists e,
          discrete_total_energy_i slider q_i q_i1 (t_i1 - t_i)%R (Member TRAPEZOIDAL)
            = Ok e /\
          energy !! i = Some e) /\
       (exists a,
          angular_momentum_i slider q_i q_i1 (t_i1 - t_i)%R (Member TRAPEZOIDAL)
            = Ok a /\
          momentum !! i = Some a)).
Proof.
  apply (aggregators_interval_values slider q_three time_three TRAPEZOIDAL).
  - simpl. lia.
  - reflexivity.
Defined.

(** ** Sign of the samples (C10) *)

Section Signs.
Context {n_dof : nat}.
Implicit Types (m : Model n_dof) (q : list (vec R n_dof)) (time : list R).

Lemma norm_nonneg {n : nat} (a : vec R n) : (0 <= norm a)%R.
Proof. apply sqrt_pos. Qed.

Lemma angular_momentum_i_nonneg m qa qb dt rule v :
  angular_momentum_i m qa qb dt rule = Ok v -> (0 <= v)%R.
Proof.
  unfold angular_momentum_i. intros H.
  apply bind_Ok in H as (qhat & _ & [= <-]). apply norm_nonneg.
Qed.

(** Whatever the trajectory, the times and the rule value, an array the
    angular-momentum aggregator returns has no negative entry: it starts as
    zeros and each write stores a norm. *)
Lemma discrete_angular_momentum_nonneg m q time rule momentum :
  discrete_angular_momentum m q time rule = Ok momentum ->
  Forall (fun x => (0 <= x)%R) momentum.
Proof.
  unfold discrete_angular_momentum. intros H.
  apply bind_Ok in H as (zeros & Hzeros & Hloop).
  eapply (for_range_invariant (Forall (fun x => (0 <= x)%R))); [| |exact Hloop].
  - intros i acc acc' Hacc Hstep. cbv beta in Hstep.
    apply bind_Ok in Hstep as (q_i & _ & Hstep).
    apply bind_Ok in Hstep as (q_i1 & _ & Hstep).
    apply bind_Ok in Hstep as (t_i1 & _ & Hstep).
    apply bind_Ok in Hstep as (t_i & _ & Hstep).
    apply bind_Ok in Hstep as (v & Hv & Hset).
    unfold setitem in Hset.
    destruct (i <? length acc)%nat; [|discriminate].
    injection Hset as <-.
    apply Forall_insert; [exact Hacc|].
    eapply angular_momentum_i_nonneg, Hv.
  - unfold np_zeros in Hzeros.
    destruct (Z.of_nat (length q) - 1 <? 0)%Z; [discriminate|].
    injection Hzeros as <-.
    apply Forall_replicate. apply Rle_refl.
Qed.

(** C10. On a trajectory of [N >= 2] samples with as many times, none of
    whose time steps is zero, and a supported rule, the angular-momentum
    aggregator returns an array all of whose entries are nonnegative,
    whatever the signs of the time steps and of the coordinates. The
    total-energy aggregator has no such guarantee: on the slider at rest
    below the origin every entry is negative. *)
Theorem angular_momentum_samples_nonnegative m q time r :
  (2 <= length q)%nat -> length time = length q -> nonzero_steps time ->
  (exists momentum,
     discrete_angular_momentum m q time (Member r) = Ok momentum /\
     Forall (fun x => (0 <= x)%R) momentum) /\
  (exists energy,
     discrete_total_energy slider q_low time_two (Member r) = Ok energy /\
     energy <> [] /\
     Forall (fun x => (x < 0)%R) energy).
Proof.
  intros Hq Htime _. split.
  - destruct (loop_over_intervals
                (fun qa qb dt => angular_momentum_i m qa qb dt (Member r))
                q time) as (momentum & Hrun & _); [|lia|exact Htime|].
    { intros qa qb dt. rewrite angular_momentum_i_member. eauto. }
    exists momentum. split; [exact Hrun|].
    eapply discrete_angular_momentum_nonneg, Hrun.
  - exists [(-10)%R]. split; [|split].
    + destruct r; run_script; do 2 f_equal; field; lra.
    + discriminate.
    + constructor; [lra|constructor].
Qed.
End Signs.

Lemma time_two_steps : nonzero_steps time_two.
Proof.
  intros [|[|i]] t_i t_i1 Hi Hi1; simpl in Hi, Hi1; try discriminate.
  injection Hi as <-. injection Hi1 as <-. lra.
Qed.

Lemma time_three_steps : nonzero_steps time_three.
Proof.
  intros [|[|[|i]]] t_i t_i1 Hi Hi1; simpl in Hi, Hi1; try discriminate;
    injection Hi as <-; injection Hi1 as <-; lra.
Qed.

(** The theorem at the three samples of the slider. *)
Lemma angular_momentum_samples_nonnegative_witness :
  (exists momentum,
     discrete_angular_momentum slider q_three time_three (Member MIDPOINT)
       = Ok momentum /\
     Forall (fun x => (0 <= x)%R) momentum) /\
  (exists energy,
     discrete_total_energy slider q_low time_two (Member MIDPOINT) = Ok energy /\
     energy <> [] /\
     Forall (fun x => (x < 0)%R) energy).
Proof.
  apply (angular_momentum_samples_nonnegative slider q_three time_three MIDPOINT).
  - simpl. lia.
  - reflexivity.
  - exact time_three_steps.
Defined.

(** ** Fewer than two samples (C7) *)

Section Boundary.
Context {n_dof : nat}.
Implicit Types (m : Model n_dof) (q : list (vec R n_dof)) (time : list R).

(** C7, as the code has it. On a trajectory of exactly one sample the
    aggregators return an empty array, whatever the model, the times and the
    rule value: the evaluator is not called. On a trajectory of no sample
    they raise ValueError. The drift functions raise IndexError on either. *)
Theorem fewer_than_two_samples m (q_0 : vec R n_dof) time rule :
  discrete_total_energy m [q_0] time rule = Ok [] /\
  discrete_angular_momentum m [q_0] time rule = Ok [] /\
  discrete_total_energy m [] time rule = Raise ValueError /\
  discrete_angular_momentum m [] time rule = Raise ValueError /\
  delta_total_energy m [q_0] time rule = Raise IndexError /\
  delta_angular_momentum m [q_0] time rule = Raise IndexError /\
  delta_total_energy m [] time rule = Raise IndexError /\
  delta_angular_momentum m [] time rule = Raise IndexError.
Proof. repeat split; reflexivity. Qed.
End Boundary.

(** C7, as stated, fails on the trajectory of no sample: the aggregator
    raises instead of returning an empty array. *)
Lemma no_sample_raises :
  discrete_total_energy slider [] [] (Member TRAPEZOIDAL) = Raise ValueError /\
  discrete_total_energy slider [] [] (Member TRAPEZOIDAL) <> Ok [].
Proof. split; [reflexivity|discriminate]. Qed.

(** ** The drift functions (C3, C8) *)

Section Drift.
Context {n_dof : nat}.
Implicit Types (m : Model n_dof) (q : list (vec R n_dof)) (time : list R).

(** What the drift functions compute on a trajectory of [N >= 2] samples:
    the first interval is evaluated with the step [t_1 - t_0], the last one
    with the step [t_{N-2} - t_{N-1}]. *)
Lemma delta_total_energy_steps m q time r
    (q_0 q_1 q_a q_b : vec R n_dof) (t_0 t_1 t_a t_b : R) :
  (2 <= length q)%nat -> length time = length q ->
  q !! 0%nat = Some q_0 -> q !! 1%nat = Some q_1 ->
  time !! 0%nat = Some t_0 -> time !! 1%nat = Some t_1 ->
  q !! (length q - 2)%nat = Some q_a -> q !! (length q - 1)%nat = Some q_b ->
  time !! (length q - 2)%nat = Some t_a -> time !! (length q - 1)%nat = Some t_b ->
  delta_total_energy m q time (Member r) =
    let* first := discrete_total_energy_i m q_0 q_1 (t_1 - t_0)%R (Member r) in
    let* last := discrete_total_energy_i m q_a q_b (t_a - t_b)%R (Member r) in
    Ok (last - first)%R.
Proof.
  intros Hq Htime H0 H1 T0 T1 Ha Hb Ta Tb. unfold delta_total_energy.
  rewrite (getitem_lookup q 0 q_0 H0 : getitem q 0 = _),
    (getitem_lookup q 1 q_1 H1 : getitem q 1 = _),
    (getitem_lookup time 1 t_1 T1 : getitem time 1 = _),
    (getitem_lookup time 0 t_0 T0 : getitem time 0 = _).
  cbn [bind].
  assert (Qa : getitem q (-2) = Ok q_a)
    by (apply (getitem_from_end q 2); [lia | assumption]).
  assert (Qb : getitem q (-1) = Ok q_b)
    by (apply (getitem_from_end q 1); [lia | assumption]).
  assert (Sa : getitem time (-2) = Ok t_a)
    by (apply (getitem_from_end time 2); rewrite Htime; [lia | assumption]).
  assert (Sb : getitem time (-1) = Ok t_b)
    by (apply (getitem_from_end time 1); rewrite Htime; [lia | assumption]).
  rewrite Qa, Qb, Sa, Sb.
  cbn [bind]. rewrite !discrete_total_energy_i_member. reflexivity.
Qed.

Lemma delta_angular_momentum_steps m q time r
    (q_0 q_1 q_a q_b : vec R n_dof) (t_0 t_1 t_a t_b : R) :
  (2 <= length q)%nat -> length time = length q ->
  q !! 0%nat = Some q_0 -> q !! 1%nat = Some q_1 ->
  time !! 0%nat = Some t_0 -> time !! 1%nat = Some t_1 ->
  q !! (length q - 2)%nat = Some q_a -> q !! (length q - 1)%nat = Some q_b ->
  time !! (length q - 2)%nat = Some t_a -> time !! (length q - 1)%nat = Some t_b ->
  delta_angular_momentum m q time (Member r) =
    let* first := angular_momentum_i m q_0 q_1 (t_1 - t_0)%R (Member r) in
    let* last := angular_momentum_i m q_a q_b (t_a - t_b)%R (Member r) in
    Ok (last - first)%R.
Proof.
  intros Hq Htime H0 H1 T0 T1 Ha Hb Ta Tb. unfold delta_angular_momentum.
  rewrite (getitem_lookup q 0 q_0 H0 : getitem q 0 = _),
    (getitem_lookup q 1 q_1 H1 : getitem q 1 = _),
    (getitem_lookup time 1 t_1 T1 : getitem time 1 = _),
    (getitem_lookup time 0 t_0 T0 : getitem time 0 = _).
  cbn [bind].
  assert (Qa : getitem q (-2) = Ok q_a)
    by (apply (getitem_from_end q 2); [lia | assumption]).
  assert (Qb : getitem q (-1) = Ok q_b)
    by (apply (getitem_from_end q 1); [lia | assumption]).
  assert (Sa : getitem time (-2) = Ok t_a)
    by (apply (getitem_from_end time 2); rewrite Htime; [lia | assumption]).
  assert (Sb : getitem time (-1) = Ok t_b)
    by (apply (getitem_from_end time 1); rewrite Htime; [lia | assumption]).
  rewrite Qa, Qb, Sa, Sb.
  cbn [bind]. rewrite !angular_momentum_i_member. reflexivity.
Qed.

(** Reversing the time step negates the velocity. *)
Lemma vdiv_reversed_step {n : nat} (a : vec R n) (s t : R) :
  vdiv a (s - t) = vmap Ropp (vdiv a (t - s)).
Proof.
  unfold vdiv. apply vec_eq. intros i. rewrite !vlookup_map.
  replace (s - t)%R with (- (t - s))%R by lra. apply Rdiv_opp_r.
Qed.

(** On a model that is even in the velocity the reversed step is not seen. *)
Lemma evaluators_reversed_step m qa qb s t r :
  even_in_velocity m ->
  discrete_total_energy_i m qa qb (s - t) (Member r) =
    discrete_total_energy_i m qa qb (t - s) (Member r) /\
  angular_momentum_i m qa qb (s - t) (Member r) =
    angular_momentum_i m qa qb (t - s) (Member r).
Proof.
  intros Heven.
  rewrite !discrete_total_energy_i_member, !angular_momentum_i_member.
  rewrite vdiv_reversed_step.
  destruct (Heven (representative_coordinate r qa qb) (vdiv (vsub qb qa) (t - s)))
    as [-> ->].
  split; reflexivity.
Qed.
End Drift.

Lemma slider_even_in_velocity : even_in_velocity slider.
Proof.
  intros q qdot. inv_vec qdot. intros v. split.
  - run_script. field.
  - unfold norm, sum_squares. f_equal. run_script. ring.
Qed.

(** On a model that is even in the velocity, the drift is the last entry of
    the aggregated samples minus the first. *)
Lemma delta_of_even_model {n_dof : nat} (m : Model n_dof)
    (q : list (vec R n_dof)) (time : list R) (r : QuadratureRule) :
  even_in_velocity m ->
  (2 <= length q)%nat -> length time = length q ->
  exists energy momentum e_first e_last a_first a_last,
    discrete_total_energy m q time (Member r) = Ok energy /\
    discrete_angular_momentum m q time (Member r) = Ok momentum /\
    energy !! 0%nat = Some e_first /\ energy !! (length q - 2)%nat = Some e_last /\
    momentum !! 0%nat = Some a_first /\ momentum !! (length q - 2)%nat = Some a_last /\
    delta_total_energy m q time (Member r) = Ok (e_last - e_first)%R /\
    delta_angular_momentum m q time (Member r) = Ok (a_last - a_first)%R.
Proof.
  intros Heven Hq Htime.
  destruct (lookup_lt_is_Some_2 q 0) as [q_0 H0]; [lia|].
  destruct (lookup_lt_is_Some_2 q 1) as [q_1 H1]; [lia|].
  destruct (lookup_lt_is_Some_2 time 0) as [t_0 T0]; [lia|].
  destruct (lookup_lt_is_Some_2 time 1) as [t_1 T1]; [lia|].
  destruct (lookup_lt_is_Some_2 q (length q - 2)) as [q_a Ha]; [lia|].
  destruct (lookup_lt_is_Some_2 q (length q - 1)) as [q_b Hb]; [lia|].
  destruct (lookup_lt_is_Some_2 time (length q - 2)) as [t_a Ta]; [lia|].
  destruct (lookup_lt_is_Some_2 time (length q - 1)) as [t_b Tb]; [lia|].
  assert (Hb' : q !! S (length q - 2) = Some q_b)
    by (replace (S (length q - 2)) with (length q - 1)%nat by lia; exact Hb).
  assert (Tb' : time !! S (length q - 2) = Some t_b)
    by (replace (S (length q - 2)) with (length q - 1)%nat by lia; exact Tb).
  destruct (loop_over_intervals
              (fun qa qb dt => discrete_total_energy_i m qa qb dt (Member r))
              q time) as (energy & He & _ & Hes); [|lia|exact Htime|].
  { intros qa qb dt. rewrite discrete_total_energy_i_member. eauto. }
  destruct (loop_over_intervals
              (fun qa qb dt => angular_momentum_i m qa qb dt (Member r))
              q time) as (momentum & Hm & _ & Hms); [|lia|exact Htime|].
  { intros qa qb dt. rewrite angular_momentum_i_member. eauto. }
  destruct (Hes 0%nat) as (e_first & Hef & Hef'); [lia|].
  destruct (Hes (length q - 2)%nat) as (e_last & Hel & Hel'); [lia|].
  destruct (Hms 0%nat) as (a_first & Haf & Haf'); [lia|].
  destruct (Hms (length q - 2)%nat) as (a_last & Hal & Hal'); [lia|].
  unfold interval_sample in Hef, Hel, Haf, Hal.
  rewrite H0, H1, T0, T1 in Hef, Haf. rewrite Ha, Hb', Ta, Tb' in Hel, Hal.
  exists energy, momentum, e_first, e_last, a_first, a_last.
  repeat (split; [assumption|]).
  rewrite (delta_total_energy_steps m q time r q_0 q_1 q_a q_b t_0 t_1 t_a t_b)
    by assumption.
  rewrite (delta_angular_momentum_steps m q time r q_0 q_1 q_a q_b t_0 t_1 t_a t_b)
    by assumption.
  destruct (evaluators_reversed_step m q_a q_b t_a t_b r Heven) as [-> ->].
  rewrite Hef, Hel, Haf, Hal. split; reflexivity.
Qed.

(** C3. On a model that is even in the velocity (a [biorbd.Model]), a
    trajectory of [N >= 2] samples with as many times, none of whose time
    steps is zero, and a supported rule, each drift function returns the
    evaluator on [(q_{N-2}, q_{N-1})] with the step [t_{N-1} - t_{N-2}] minus
    the evaluator on [(q_0, q_1)] with the step [t_1 - t_0], and these two
    values are the last and the first entry of the array the matching
    aggregator returns. The code passes [time[-2] - time[-1]] for the last
    interval; on such a model the negated velocity changes no value. *)
Theorem drift_equals_last_minus_first {n_dof : nat} (m : Model n_dof)
    (q : list (vec R n_dof)) (time : list R) (r : QuadratureRule)
    (q_0 q_1 q_a q_b : vec R n_dof) (t_0 t_1 t_a t_b : R) :
  even_in_velocity m ->
  (2 <= length q)%nat -> length time = length q -> nonzero_steps time ->
  q !! 0%nat = Some q_0 -> q !! 1%nat = Some q_1 ->
  q !! (length q - 2)%nat = Some q_a -> q !! (length q - 1)%nat = Some q_b ->
  time !! 0%nat = Some t_0 -> time !! 1%nat = Some t_1 ->
  time !! (length time - 2)%nat = Some t_a ->
  time !! (length time - 1)%nat = Some t_b ->
  exists energy momentum e_first e_last a_first a_last,
    discrete_total_energy_i m q_0 q_1 (t_1 - t_0)%R (Member r) = Ok e_first /\
    discrete_total_energy_i m q_a q_b (t_b - t_a)%R (Member r) = Ok e_last /\
    angular_momentum_i m q_0 q_1 (t_1 - t_0)%R (Member r) = Ok a_first /\
    angular_momentum_i m q_a q_b (t_b - t_a)%R (Member r) = Ok a_last /\
    discrete_total_energy m q time (Member r) = Ok energy /\
    head energy = Some e_first /\ last energy = Some e_last /\
    discrete_angular_momentum m q time (Member r) = Ok momentum /\
    head momentum = Some a_first /\ last momentum = Some a_last /\
    delta_total_energy m q time (Member r) = Ok (e_last - e_first)%R /\
    delta_angular_momentum m q time (Member r) = Ok (a_last - a_first)%R.
Proof.
  intros Heven Hq Htime _ H0 H1 Ha Hb T0 T1 Ta Tb.
  rewrite Htime in Ta, Tb.
  assert (Hb' : q !! S (length q - 2) = Some q_b)
    by (replace (S (length q - 2)) with (length q - 1)%nat by lia; exact Hb).
  assert (Tb' : time !! S (length q - 2) = Some t_b)
    by (replace (S (length q - 2)) with (length q - 1)%nat by lia; exact Tb).
  destruct (loop_over_intervals
              (fun qa qb dt => discrete_total_energy_i m qa qb dt (Member r))
              q time) as (energy & He & Le & Hes); [|lia|exact Htime|].
  { intros qa qb dt. rewrite discrete_total_energy_i_member. eauto. }
  destruct (loop_over_intervals
              (fun qa qb dt => angular_momentum_i m qa qb dt (Member r))
              q time) as (momentum & Hm & Lm & Hms); [|lia|exact Htime|].
  { intros qa qb dt. rewrite angular_momentum_i_member. eauto. }
  destruct (Hes 0%nat) as (e_first & Hef & Hef'); [lia|].
  destruct (Hes (length q - 2)%nat) as (e_last & Hel & Hel'); [lia|].
  destruct (Hms 0%nat) as (a_first & Haf & Haf'); [lia|].
  destruct (Hms (length q - 2)%nat) as (a_last & Hal & Hal'); [lia|].
  unfold interval_sample in Hef, Hel, Haf, Hal.
  rewrite H0, H1, T0, T1 in Hef, Haf. rewrite Ha, Hb', Ta, Tb' in Hel, Hal.
  exists energy, momentum, e_first, e_last, a_first, a_last.
  split; [exact Hef|]. split; [exact Hel|].
  split; [exact Haf|]. split; [exact Hal|].
  split; [exact He|].
  split; [rewrite head_lookup; exact Hef'|].
  split.
  { rewrite last_lookup, Le.
    replace (Nat.pred (length q - 1)) with (length q - 2)%nat by lia. exact Hel'. }
  split; [exact Hm|].
  split; [rewrite head_lookup; exact Haf'|].
  split.
  { rewrite last_lookup, Lm.
    replace (Nat.pred (length q - 1)) with (length q - 2)%nat by lia. exact Hal'. }
  rewrite (delta_total_energy_steps m q time r q_0 q_1 q_a q_b t_0 t_1 t_a t_b)
    by assumption.
  rewrite (delta_angular_momentum_steps m q time r q_0 q_1 q_a q_b t_0 t_1 t_a t_b)
    by assumption.
  destruct (evaluators_reversed_step m q_a q_b t_a t_b r Heven) as [-> ->].
  rewrite Hef, Hel, Haf, Hal. split; reflexivity.
Qed.


(** The two theorems at samples of the slider. *)
Lemma drift_equals_last_minus_first_witness :
  exists energy momentum e_first e_last a_first a_last,
    discrete_total_energy_i slider [# 0%R] [# 1%R] (1 - 0)%R (Member TRAPEZOIDAL)
      = Ok e_first /\
    discrete_total_energy_i slider [# 1%R] [# 3%R] (2 - 1)%R (Member TRAPEZOIDAL)
      = Ok e_last /\
    angular_momentum_i slider [# 0%R] [# 1%R] (1 - 0)%R (Member TRAPEZOIDAL)
      = Ok a_first /\
    angular_momentum_i slider [# 1%R] [# 3%R] (2 - 1)%R (Member TRAPEZOIDAL)
      = Ok a_last /\
    discrete_total_energy slider q_three time_three (Member TRAPEZOIDAL)
      = Ok energy /\
    head energy = Some e_first /\ last energy = Some e_last /\
    discrete_angular_momentum slider q_three time_three (Member TRAPEZOIDAL)
      = Ok momentum /\
    head momentum = Some a_first /\ last momentum = Some a_last /\
    delta_total_energy slider q_three time_three (Member TRAPEZOIDAL)
      = Ok (e_last - e_first)%R /\
    delta_angular_momentum slider q_three time_three (Member TRAPEZOIDAL)
      = Ok (a_last - a_first)%R.
Proof.
  apply (drift_equals_last_minus_first slider q_three time_three TRAPEZOIDAL
           [# 0%R] [# 1%R] [# 1%R] [# 3%R] 0%R 1%R 1%R 2%R).
  - exact slider_even_in_velocity.
  - simpl. lia.
  - reflexivity.
  - exact time_three_steps.
  - reflexivity.
  - reflexivity.
  - reflexivity.
  - reflexivity.
  - reflexivity.
  - reflexivity.
  - reflexivity.
  - reflexivity.
Defined.


(** ** Further properties of the loop and of indexing *)

(** Two bodies that agree on the indices the loop visits give the same loop. *)
Lemma for_range_ext {S : Type} (body1 body2 : nat -> S -> result S) :
  forall count i acc,
    (forall j acc', (i <= j < i + count)%nat -> body1 j acc' = body2 j acc') ->
    for_range body1 i count acc = for_range body2 i count acc.
Proof.
  induction count as [|count IH]; intros i acc Hagree; [reflexivity|].
  simpl. rewrite Hagree by lia.
  destruct (body2 i acc) as [acc'|e]; [|reflexivity]. simpl.
  apply IH. intros j acc'' Hj. apply Hagree. lia.
Qed.

(** A loop whose body keeps [P] and succeeds before index [k], and raises
    [e] at index [k], raises [e]. *)
Lemma for_range_raises {S : Type} (P : S -> Prop)
    (body : nat -> S -> result S) (k : nat) (e : exception) :
  (forall j acc, (j < k)%nat -> P acc -> exists acc', body j acc = Ok acc' /\ P acc') ->
  (forall acc, P acc -> body k acc = Raise e) ->
  forall count i acc,
    (i <= k < i + count)%nat -> P acc -> for_range body i count acc = Raise e.
Proof.
  intros Hbefore Hat count.
  induction count as [|count IH]; intros i acc Hk HP; [lia|].
  simpl. destruct (decide (i = k)) as [->|Hne].
  - now rewrite Hat.
  - destruct (Hbefore i acc) as (acc' & -> & HP'); [lia|exact HP|].
    simpl. apply IH; [lia|exact HP'].
Qed.

Lemma getitem_nat_out_of_range {A : Type} (l : list A) (i : nat) :
  (length l <= i)%nat -> getitem l (Z.of_nat i) = Raise IndexError.
Proof. intros H. apply getitem_out_of_range. lia. Qed.

(** Reading below [n] does not see what lies from [n] on. *)
Lemma getitem_take {A : Type} (l : list A) (n i : nat) :
  (i < n)%nat -> getitem (take n l) (Z.of_nat i) = getitem l (Z.of_nat i).
Proof.
  intros Hi. destruct (decide (i < length l)%nat) as [Hin|Hout].
  - destruct (lookup_lt_is_Some_2 l i Hin) as [a Ha].
    rewrite (getitem_lookup l i a Ha).
    apply getitem_lookup. rewrite lookup_take_lt by exact Hi. exact Ha.
  - rewrite !getitem_nat_out_of_range; [reflexivity|lia|].
    rewrite length_take. lia.
Qed.

(** ** The aggregators on any input *)

Section AggregatorsAnyInput.
Context {n_dof : nat}.
Implicit Types (m : Model n_dof) (q : list (vec R n_dof)) (time : list R).

Lemma discrete_total_energy_loop m q time rule :
  discrete_total_energy m q time rule =
  interval_loop (fun qa qb dt => discrete_total_energy_i m qa qb dt rule) q time.
Proof. reflexivity. Qed.

Lemma discrete_angular_momentum_loop m q time rule :
  discrete_angular_momentum m q time rule =
  interval_loop (fun qa qb dt => angular_momentum_i m qa qb dt rule) q time.
Proof. reflexivity. Qed.

Lemma interval_loop_length (evaluator : vec R n_dof -> vec R n_dof -> R -> result R)
    q time out :
  interval_loop evaluator q time = Ok out ->
  (1 <= length q)%nat /\ length out = (length q - 1)%nat.
Proof.
  unfold interval_loop, np_zeros. intros H.
  destruct (Z.of_nat (length q) - 1 <? 0)%Z eqn:Hneg; [discriminate|].
  apply Z.ltb_ge in Hneg. split; [lia|].
  cbn [bind] in H.
  eapply (for_range_invariant (fun acc => length acc = (length q - 1)%nat));
    [| |exact H].
  - intros i acc acc' Hacc Hstep. cbv beta in Hstep.
    apply bind_Ok in Hstep as (q_i & _ & Hstep).
    apply bind_Ok in Hstep as (q_i1 & _ & Hstep).
    apply bind_Ok in Hstep as (t_i1 & _ & Hstep).
    apply bind_Ok in Hstep as (t_i & _ & Hstep).
    apply bind_Ok in Hstep as (v & _ & Hset).
    unfold setitem in Hset.
    destruct (i <? length acc)%nat; [|discriminate].
    injection Hset as <-. now rewrite length_insert.
  - rewrite length_replicate. lia.
Qed.

(** X1. Whenever an aggregator returns, on any trajectory, times and rule
    value, the trajectory has at least one sample and the array has one
    entry per interval. *)
Theorem aggregator_output_length m q time rule out :
  discrete_total_energy m q time rule = Ok out \/
  discrete_angular_momentum m q time rule = Ok out ->
  (1 <= length q)%nat /\ length out = (length q - 1)%nat.
Proof.
  rewrite discrete_total_energy_loop, discrete_angular_momentum_loop.
  intros [H|H]; eapply interval_loop_length, H.
Qed.

Lemma interval_loop_take (evaluator : vec R n_dof -> vec R n_dof -> R -> result R)
    q time :
  interval_loop evaluator q (take (length q) time) = interval_loop evaluator q time.
Proof.
  unfold interval_loop.
  destruct (np_zeros (Z.of_nat (length q) - 1)) as [zeros|e] eqn:Hz; [|reflexivity].
  cbn [bind]. apply for_range_ext. intros j acc Hj.
  assert (Hlt : (S j < length q)%nat).
  { unfold np_zeros in Hz.
    destruct (Z.of_nat (length q) - 1 <? 0)%Z eqn:Hneg; [discriminate|].
    apply Z.ltb_ge in Hneg. lia. }
  replace (Z.of_nat j + 1)%Z with (Z.of_nat (S j)) by lia.
  rewrite !getitem_take by lia. reflexivity.
Qed.

(** X2. The aggregators read only the first [N] times: times after them
    change neither the values nor the errors. *)
Theorem aggregators_ignore_later_times m q time rule :
  discrete_total_energy m q (take (length q) time) rule =
    discrete_total_energy m q time rule /\
  discrete_angular_momentum m q (take (length q) time) rule =
    discrete_angular_momentum m q time rule.
Proof.
  rewrite !discrete_total_energy_loop, !discrete_angular_momentum_loop.
  split; apply interval_loop_take.
Qed.
End AggregatorsAnyInput.

(** ** Misaligned inputs and unsupported rules *)

Section Misaligned.
Context {n_dof : nat}.
Implicit Types (m : Model n_dof) (q : list (vec R n_dof)) (time : list R).

Lemma delta_total_energy_shape m q time rule :
  delta_total_energy m q time rule =
  end_minus_start (fun qa qb dt => discrete_total_energy_i m qa qb dt rule) q time.
Proof. reflexivity. Qed.

Lemma delta_angular_momentum_shape m q time rule :
  delta_angular_momentum m q time rule =
  end_minus_start (fun qa qb dt => angular_momentum_i m qa qb dt rule) q time.
Proof. reflexivity. Qed.

(** With at least two samples and two times, whatever the two lengths, the
    drift is made of the first two and the last two entries of each. *)
Lemma end_minus_start_reads (evaluator : vec R n_dof -> vec R n_dof -> R -> result R)
    q time (q_0 q_1 q_a q_b : vec R n_dof) (t_0 t_1 t_a t_b : R) :
  (2 <= length q)%nat -> (2 <= length time)%nat ->
  q !! 0%nat = Some q_0 -> q !! 1%nat = Some q_1 ->
  time !! 0%nat = Some t_0 -> time !! 1%nat = Some t_1 ->
  q !! (length q - 2)%nat = Some q_a -> q !! (length q - 1)%nat = Some q_b ->
  time !! (length time - 2)%nat = Some t_a ->
  time !! (length time - 1)%nat = Some t_b ->
  end_minus_start evaluator q time =
    let* value_start := evaluator q_0 q_1 (t_1 - t_0)%R in
    let* value_end := evaluator q_a q_b (t_a - t_b)%R in
    Ok (value_end - value_start)%R.
Proof.
  intros Hq Ht H0 H1 T0 T1 Ha Hb Ta Tb. unfold end_minus_start.
  rewrite (getitem_lookup q 0 q_0 H0 : getitem q 0 = _),
    (getitem_lookup q 1 q_1 H1 : getitem q 1 = _),
    (getitem_lookup time 1 t_1 T1 : getitem time 1 = _),
    (getitem_lookup time 0 t_0 T0 : getitem time 0 = _).
  cbn [bind].
  assert (Qa : getitem q (-2) = Ok q_a)
    by (apply (getitem_from_end q 2); [lia | assumption]).
  assert (Qb : getitem q (-1) = Ok q_b)
    by (apply (getitem_from_end q 1); [lia | assumption]).
  assert (Sa : getitem time (-2) = Ok t_a)
    by (apply (getitem_from_end time 2); [lia | assumption]).
  assert (Sb : getitem time (-1) = Ok t_b)
    by (apply (getitem_from_end time 1); [lia | assumption]).
  destruct (evaluator q_0 q_1 (t_1 - t_0)%R) as [value_start|e]; [|reflexivity].
  cbn [bind]. rewrite Qa, Qb, Sa, Sb. reflexivity.
Qed.

(** The four ends of a list of at least two entries. *)
Lemma four_ends {A : Type} (l : list A) :
  (2 <= length l)%nat ->
  exists a b c d,
    l !! 0%nat = Some a /\ l !! 1%nat = Some b /\
    l !! (length l - 2)%nat = Some c /\ l !! (length l - 1)%nat = Some d.
Proof.
  intros H.
  destruct (lookup_lt_is_Some_2 l 0) as [a Ha]; [lia|].
  destruct (lookup_lt_is_Some_2 l 1) as [b Hb]; [lia|].
  destruct (lookup_lt_is_Some_2 l (length l - 2)) as [c Hc]; [lia|].
  destruct (lookup_lt_is_Some_2 l (length l - 1)) as [d Hd]; [lia|].
  exists a, b, c, d. auto.
Qed.

Lemma interval_loop_short_time
    (evaluator : vec R n_dof -> vec R n_dof -> R -> result R) q time :
  (forall qa qb dt, exists v, evaluator qa qb dt = Ok v) ->
  (2 <= length q)%nat -> (length time < length q)%nat ->
  interval_loop evaluator q time = Raise IndexError.
Proof.
  intros Htotal Hq Ht. unfold interval_loop, np_zeros.
  replace (Z.of_nat (length q) - 1 <? 0)%Z with false
    by (symmetry; apply Z.ltb_ge; lia).
  cbn [bind].
  apply (for_range_raises (fun acc => length acc = (length q - 1)%nat) _
           (length time - 1)%nat).
  - intros j acc Hj Hacc.
    destruct (lookup_lt_is_Some_2 q j) as [q_i Hq_i]; [lia|].
    destruct (lookup_lt_is_Some_2 q (S j)) as [q_i1 Hq_i1]; [lia|].
    destruct (lookup_lt_is_Some_2 time j) as [t_i Ht_i]; [lia|].
    destruct (lookup_lt_is_Some_2 time (S j)) as [t_i1 Ht_i1]; [lia|].
    rewrite (getitem_lookup _ _ _ Hq_i), (getitem_lookup_succ _ _ _ Hq_i1),
      (getitem_lookup_succ _ _ _ Ht_i1), (getitem_lookup _ _ _ Ht_i).
    cbn [bind]. destruct (Htotal q_i q_i1 (t_i1 - t_i)%R) as [v ->].
    cbn [bind]. unfold setitem.
    replace (j <? length acc)%nat with true by (symmetry; apply Nat.ltb_lt; lia).
    eexists. split; [reflexivity|]. now rewrite length_insert.
  - intros acc Hacc.
    destruct (lookup_lt_is_Some_2 q (length time - 1)) as [q_i Hq_i]; [lia|].
    destruct (lookup_lt_is_Some_2 q (S (length time - 1))) as [q_i1 Hq_i1]; [lia|].
    rewrite (getitem_lookup _ _ _ Hq_i), (getitem_lookup_succ _ _ _ Hq_i1).
    cbn [bind].
    replace (Z.of_nat (length time - 1) + 1)%Z
      with (Z.of_nat (S (length time - 1))) by lia.
    rewrite getitem_nat_out_of_range by lia. reflexivity.
  - lia.
  - rewrite length_replicate. lia.
Qed.

(** X3. With a supported rule, at least two times and more samples than
    times, the aggregators raise IndexError, while the drift functions return
    a value: they take their times from the two ends of [time]. *)
Theorem fewer_times_than_samples m q time r :
  (2 <= length time)%nat -> (length time < length q)%nat ->
  discrete_total_energy m q time (Member r) = Raise IndexError /\
  discrete_angular_momentum m q time (Member r) = Raise IndexError /\
  (exists d, delta_total_energy m q time (Member r) = Ok d) /\
  (exists d, delta_angular_momentum m q time (Member r) = Ok d).
Proof.
  intros Ht Hq.
  rewrite discrete_total_energy_loop, discrete_angular_momentum_loop,
    delta_total_energy_shape, delta_angular_momentum_shape.
  destruct (four_ends q) as (q_0 & q_1 & q_a & q_b & H0 & H1 & Ha & Hb); [lia|].
  destruct (four_ends time) as (t_0 & t_1 & t_a & t_b & T0 & T1 & Ta & Tb); [lia|].
  repeat split.
  - apply interval_loop_short_time; [|lia|lia].
    intros qa qb dt. rewrite discrete_total_energy_i_member. eauto.
  - apply interval_loop_short_time; [|lia|lia].
    intros qa qb dt. rewrite angular_momentum_i_member. eauto.
  - rewrite (end_minus_start_reads _ q time q_0 q_1 q_a q_b t_0 t_1 t_a t_b)
      by (assumption || lia).
    rewrite !discrete_total_energy_i_member. eexists. reflexivity.
  - rewrite (end_minus_start_reads _ q time q_0 q_1 q_a q_b t_0 t_1 t_a t_b)
      by (assumption || lia).
    rewrite !angular_momentum_i_member. eexists. reflexivity.
Qed.

(** X4. With at least two samples and two times, a value that is not a
    member of the enumeration makes the aggregators and the drift functions
    raise NotImplementedError, at their first interval. *)
Theorem unsupported_rule_propagates m q time repr :
  (2 <= length q)%nat -> (2 <= length time)%nat ->
  discrete_total_energy m q time (NotARule repr) = Raise NotImplementedError /\
  discrete_angular_momentum m q time (NotARule repr) = Raise NotImplementedError /\
  delta_total_energy m q time (NotARule repr) = Raise NotImplementedError /\
  delta_angular_momentum m q time (NotARule repr) = Raise NotImplementedError.
Proof.
  intros Hq Ht.
  destruct (four_ends q) as (q_0 & q_1 & q_a & q_b & H0 & H1 & Ha & Hb); [lia|].
  destruct (four_ends time) as (t_0 & t_1 & t_a & t_b & T0 & T1 & Ta & Tb); [lia|].
  assert (Hloop : forall evaluator : vec R n_dof -> vec R n_dof -> R -> result R,
            (forall qa qb dt, evaluator qa qb dt = Raise NotImplementedError) ->
            interval_loop evaluator q time = Raise NotImplementedError).
  { intros evaluator Hraise. unfold interval_loop, np_zeros.
    replace (Z.of_nat (length q) - 1 <? 0)%Z with false
      by (symmetry; apply Z.ltb_ge; lia).
    cbn [bind].
    apply (for_range_raises (fun _ => True) _ 0%nat); [intros; lia| |lia|exact I].
    intros acc _.
    rewrite (getitem_lookup _ _ _ H0), (getitem_lookup_succ _ _ _ H1),
      (getitem_lookup_succ _ _ _ T1), (getitem_lookup _ _ _ T0).
    cbn [bind]. now rewrite Hraise. }
  rewrite discrete_total_energy_loop, discrete_angular_momentum_loop,
    delta_total_energy_shape, delta_angular_momentum_shape.
  rewrite !(end_minus_start_reads _ q time q_0 q_1 q_a q_b t_0 t_1 t_a t_b)
    by (assumption || lia).
  repeat split; try (apply Hloop; intros; reflexivity); reflexivity.
Qed.
End Misaligned.

(** ** What the drift reads *)

Lemma ends_of_ends {A : Type} (l : list A) (a b c d : A) :
  (2 <= length l)%nat ->
  l !! 0%nat = Some a -> l !! 1%nat = Some b ->
  l !! (length l - 2)%nat = Some c -> l !! (length l - 1)%nat = Some d ->
  let l' := take 2 l ++ drop (length l - 2) l in
  length l' = 4%nat /\
  l' !! 0%nat = Some a /\ l' !! 1%nat = Some b /\
  l' !! 2%nat = Some c /\ l' !! 3%nat = Some d.
Proof.
  intros Hl Ha Hb Hc Hd l'. subst l'.
  assert (Htake : length (take 2 l) = 2%nat) by (rewrite length_take; lia).
  split; [rewrite length_app, Htake, length_drop; lia|].
  split; [rewrite lookup_app_l, lookup_take_lt by lia; exact Ha|].
  split; [rewrite lookup_app_l, lookup_take_lt by lia; exact Hb|].
  split.
  - rewrite lookup_app_r, Htake, lookup_drop by lia.
    replace (length l - 2 + (2 - 2))%nat with (length l - 2)%nat by lia. exact Hc.
  - rewrite lookup_app_r, Htake, lookup_drop by lia.
    replace (length l - 2 + (3 - 2))%nat with (length l - 1)%nat by lia. exact Hd.
Qed.

Lemma end_minus_start_ends {n_dof : nat}
    (evaluator : vec R n_dof -> vec R n_dof -> R -> result R)
    (q : list (vec R n_dof)) (time : list R) :
  (2 <= length q)%nat -> (2 <= length time)%nat ->
  end_minus_start evaluator q time =
  end_minus_start evaluator (take 2 q ++ drop (length q - 2) q)
    (take 2 time ++ drop (length time - 2) time).
Proof.
  intros Hq Ht.
  destruct (four_ends q Hq) as (q_0 & q_1 & q_a & q_b & H0 & H1 & Ha & Hb).
  destruct (four_ends time Ht) as (t_0 & t_1 & t_a & t_b & T0 & T1 & Ta & Tb).
  destruct (ends_of_ends q q_0 q_1 q_a q_b Hq H0 H1 Ha Hb)
    as (Lq & H0' & H1' & Ha' & Hb').
  destruct (ends_of_ends time t_0 t_1 t_a t_b Ht T0 T1 Ta Tb)
    as (Lt & T0' & T1' & Ta' & Tb').
  rewrite (end_minus_start_reads evaluator q time q_0 q_1 q_a q_b t_0 t_1 t_a t_b)
    by (assumption || lia).
  symmetry.
  apply (end_minus_start_reads evaluator _ _ q_0 q_1 q_a q_b t_0 t_1 t_a t_b);
    rewrite ?Lq, ?Lt; (assumption || lia).
Qed.

(** X5. With at least two samples and two times, the drift functions depend
    on the first two and the last two samples and on the first two and the
    last two times alone, whatever the rule value and whether or not there
    are as many times as samples. *)
Theorem drift_reads_only_the_ends {n_dof : nat} (m : Model n_dof)
    (q : list (vec R n_dof)) (time : list R) (rule : rule_value) :
  (2 <= length q)%nat -> (2 <= length time)%nat ->
  delta_total_energy m q time rule =
    delta_total_energy m (take 2 q ++ drop (length q - 2) q)
      (take 2 time ++ drop (length time - 2) time) rule /\
  delta_angular_momentum m q time rule =
    delta_angular_momentum m (take 2 q ++ drop (length q - 2) q)
      (take 2 time ++ drop (length time - 2) time) rule.
Proof.
  intros Hq Ht. rewrite !delta_total_energy_shape, !delta_angular_momentum_shape.
  split; apply end_minus_start_ends; assumption.
Qed.

(** X7. On two samples at two different times and a model that is even in
    the velocity, both drifts are zero on every supported rule. *)
Theorem two_samples_drift_of_even_model {n_dof : nat} (m : Model n_dof)
    (q_0 q_1 : vec R n_dof) (t_0 t_1 : R) (r : QuadratureRule) :
  even_in_velocity m -> t_0 <> t_1 ->
  delta_total_energy m [q_0; q_1] [t_0; t_1] (Member r) = Ok 0%R /\
  delta_angular_momentum m [q_0; q_1] [t_0; t_1] (Member r) = Ok 0%R.
Proof.
  intros Heven _.
  rewrite delta_total_energy_shape, delta_angular_momentum_shape.
  rewrite !(end_minus_start_reads _ [q_0; q_1] [t_0; t_1]
              q_0 q_1 q_0 q_1 t_0 t_1 t_0 t_1) by (reflexivity || (simpl; lia)).
  destruct (evaluators_reversed_step m q_0 q_1 t_0 t_1 r Heven) as [-> ->].
  rewrite discrete_total_energy_i_member, angular_momentum_i_member.
  cbn [bind]. split; f_equal; ring.
Qed.

(** ** Symmetries of the evaluators *)

Section Symmetries.
Context {n_dof : nat}.
Implicit Types (m : Model n_dof) (qa qb : vec R n_dof) (dt : R).

Lemma vadd_comm qa qb : vadd qa qb = vadd qb qa.
Proof.
  unfold vadd. apply vec_eq. intros i. rewrite !vlookup_zip_with. ring.
Qed.

Lemma midpoint_same qa : vdiv (vadd qa qa) 2 = qa.
Proof.
  unfold vdiv, vadd. apply vec_eq. intros i.
  rewrite vlookup_map, vlookup_zip_with. field.
Qed.

Lemma velocity_same qa dt : dt <> 0%R -> vdiv (vsub qa qa) dt = at_rest n_dof.
Proof.
  intros Hdt. unfold vdiv, vsub, at_rest. apply vec_eq. intros i.
  rewrite vlookup_map, vlookup_zip_with, vlookup_replicate. now field.
Qed.

Lemma velocity_backwards qa qb dt :
  vdiv (vsub qa qb) (- dt) = vdiv (vsub qb qa) dt.
Proof.
  unfold vdiv, vsub. apply vec_eq. intros i.
  rewrite !vlookup_map, !vlookup_zip_with.
  rewrite Rdiv_opp_r, <- Rdiv_opp_l. f_equal. ring.
Qed.

Lemma representative_coordinate_mirror r qa qb :
  representative_coordinate (mirror r) qb qa = representative_coordinate r qa qb.
Proof. destruct r; simpl; try reflexivity; now rewrite vadd_comm. Qed.

(** X8. When the two samples of an interval are the same and the time step
    is not zero, every supported rule gives the same sample: the energy, or
    the momentum norm, of the model at that coordinate and at rest. *)
Theorem same_samples_all_rules m qa dt r :
  dt <> 0%R ->
  discrete_total_energy_i m qa qa dt (Member r) =
    Ok (KineticEnergy m qa (at_rest n_dof) + PotentialEnergy m qa)%R /\
  angular_momentum_i m qa qa dt (Member r) =
    Ok (norm (angularMomentum m qa (at_rest n_dof))).
Proof.
  intros Hdt.
  rewrite discrete_total_energy_i_member, angular_momentum_i_member.
  rewrite velocity_same by exact Hdt.
  assert (Hq : representative_coordinate r qa qa = qa)
    by (destruct r; simpl; try reflexivity; apply midpoint_same).
  rewrite Hq. split; reflexivity.
Qed.

(** X9. Reading an interval backwards (the two samples swapped, the time
    step negated, LEFT_APPROXIMATION and RIGHT_APPROXIMATION exchanged) gives
    the same sample, for every model. *)
Theorem evaluators_read_backwards m qa qb dt r :
  discrete_total_energy_i m qb qa (- dt) (Member (mirror r)) =
    discrete_total_energy_i m qa qb dt (Member r) /\
  angular_momentum_i m qb qa (- dt) (Member (mirror r)) =
    angular_momentum_i m qa qb dt (Member r).
Proof.
  rewrite !discrete_total_energy_i_member, !angular_momentum_i_member.
  rewrite velocity_backwards, representative_coordinate_mirror.
  split; reflexivity.
Qed.
End Symmetries.

(** ** Drift and aggregated samples on a model even in the velocity *)

(** X6. On a model that is even in the velocity, a trajectory of [N >= 2]
    samples with as many times and a supported rule, each drift function
    returns the last entry minus the first entry of the array the matching
    aggregator returns. *)
Theorem drift_is_last_minus_first_of_even_model {n_dof : nat} (m : Model n_dof)
    (q : list (vec R n_dof)) (time : list R) (r : QuadratureRule)
    (energy momentum : list R) :
  even_in_velocity m ->
  (2 <= length q)%nat -> length time = length q ->
  discrete_total_energy m q time (Member r) = Ok energy ->
  discrete_angular_momentum m q time (Member r) = Ok momentum ->
  exists e_first e_last a_first a_last,
    head energy = Some e_first /\ last energy = Some e_last /\
    head momentum = Some a_first /\ last momentum = Some a_last /\
    delta_total_energy m q time (Member r) = Ok (e_last - e_first)%R /\
    delta_angular_momentum m q time (Member r) = Ok (a_last - a_first)%R.
Proof.
  intros Heven Hq Htime He Ha.
  destruct (delta_of_even_model m q time r Heven Hq Htime)
    as (energy' & momentum' & e_first & e_last & a_first & a_last
        & He' & Ha' & E0 & E1 & A0 & A1 & Hde & Hda).
  rewrite He in He'. rewrite Ha in Ha'.
  injection He' as <-. injection Ha' as <-.
  assert (Le : length energy = (length q - 1)%nat).
  { rewrite discrete_total_energy_loop in He.
    now apply interval_loop_length in He. }
  assert (La : length momentum = (length q - 1)%nat).
  { rewrite discrete_angular_momentum_loop in Ha.
    now apply interval_loop_length in Ha. }
  exists e_first, e_last, a_first, a_last.
  rewrite <- !head_lookup in *. rewrite !last_lookup, Le, La.
  replace (Nat.pred (length q - 1)) with (length q - 2)%nat by lia.
  auto 10.
Qed.

(** ** Extending a trajectory *)

Lemma interval_loop_snoc {n_dof : nat}
    (evaluator : vec R n_dof -> vec R n_dof -> R -> result R)
    (q : list (vec R n_dof)) (time : list R)
    (q_last q_new : vec R n_dof) (t_last t_new : R) :
  (forall qa qb dt, exists v, evaluator qa qb dt = Ok v) ->
  length time = length q ->
  last q = Some q_last -> last time = Some t_last ->
  exists out v,
    interval_loop evaluator q time = Ok out /\
    evaluator q_last q_new (t_new - t_last)%R = Ok v /\
    interval_loop evaluator (q ++ [q_new]) (time ++ [t_new]) = Ok (out ++ [v]).
Proof.
  intros Htotal Htime Hql Htl.
  assert (Hq : (1 <= length q)%nat).
  { destruct q; [discriminate|simpl; lia]. }
  rewrite last_lookup in Hql. rewrite last_lookup, Htime in Htl.
  destruct (loop_over_intervals evaluator q time Htotal Hq Htime)
    as (out & Hout & Lout & Sout).
  destruct (loop_over_intervals evaluator (q ++ [q_new]) (time ++ [t_new]) Htotal)
    as (out' & Hout' & Lout' & Sout').
  { rewrite length_app. simpl. lia. }
  { rewrite !length_app, Htime. reflexivity. }
  destruct (Htotal q_last q_new (t_new - t_last)%R) as [v Hv].
  exists out, v. split; [exact Hout|]. split; [exact Hv|].
  unfold interval_loop. rewrite Hout'. f_equal.
  rewrite length_app in Lout', Sout'. simpl in Lout', Sout'.
  apply list_eq. intros i.
  destruct (decide (i < length q - 1)%nat) as [Hi|Hi].
  - destruct (Sout i Hi) as (w & Hw & Ew).
    destruct (Sout' i) as (w' & Hw' & Ew'); [lia|].
    rewrite lookup_app_l, Ew, Ew' by lia. f_equal.
    unfold interval_sample in Hw, Hw'.
    rewrite (lookup_app_l q), (lookup_app_l time) in Hw' by lia.
    rewrite (lookup_app_l q), (lookup_app_l time) in Hw' by lia.
    rewrite Hw in Hw'. now injection Hw'.
  - destruct (decide (i = length q - 1)%nat) as [->|Hne].
    + destruct (Sout' (length q - 1)%nat) as (w' & Hw' & Ew'); [lia|].
      rewrite Ew', lookup_app_r by lia. rewrite Lout, Nat.sub_diag. simpl. f_equal.
      unfold interval_sample in Hw'.
      replace (S (length q - 1)) with (length q) in Hw' by lia.
      rewrite (lookup_app_l q), (lookup_app_l time) in Hw' by lia.
      rewrite (lookup_app_r q), (lookup_app_r time) in Hw' by lia.
      rewrite Htime, Nat.sub_diag in Hw'. simpl in Hw'.
      replace (Nat.pred (length q)) with (length q - 1)%nat in Hql, Htl by lia.
      rewrite Hql, Htl in Hw'. rewrite Hv in Hw'. now injection Hw'.
    + rewrite !lookup_ge_None_2; [reflexivity| |lia].
      rewrite length_app. simpl. lia.
Qed.

(** X10. Appending one sample and its time to a trajectory with as many
    times as samples appends one entry to what each aggregator returns: the
    evaluator on the former last sample and the new one. The earlier entries
    are unchanged. *)
Theorem aggregators_append_sample {n_dof : nat} (m : Model n_dof)
    (q : list (vec R n_dof)) (time : list R) (r : QuadratureRule)
    (q_last q_new : vec R n_dof) (t_last t_new : R) :
  length time = length q ->
  last q = Some q_last -> last time = Some t_last ->
  exists energy momentum e a,
    discrete_total_energy m q time (Member r) = Ok energy /\
    discrete_angular_momentum m q time (Member r) = Ok momentum /\
    discrete_total_energy_i m q_last q_new (t_new - t_last)%R (Member r) = Ok e /\
    angular_momentum_i m q_last q_new (t_new - t_last)%R (Member r) = Ok a /\
    discrete_total_energy m (q ++ [q_new]) (time ++ [t_new]) (Member r)
      = Ok (energy ++ [e]) /\
    discrete_angular_momentum m (q ++ [q_new]) (time ++ [t_new]) (Member r)
      = Ok (momentum ++ [a]).
Proof.
  intros Htime Hql Htl.
  destruct (interval_loop_snoc
              (fun qa qb dt => discrete_total_energy_i m qa qb dt (Member r))
              q time q_last q_new t_last t_new)
    as (energy & e & He & Hev & He'); try assumption.
  { intros qa qb dt. rewrite discrete_total_energy_i_member. eauto. }
  destruct (interval_loop_snoc
              (fun qa qb dt => angular_momentum_i m qa qb dt (Member r))
              q time q_last q_new t_last t_new)
    as (momentum & a & Ha & Hav & Ha'); try assumption.
  { intros qa qb dt. rewrite angular_momentum_i_member. eauto. }
  exists energy, momentum, e, a.
  rewrite !discrete_total_energy_loop, !discrete_angular_momentum_loop.
  auto 10.
Qed.

(** ** The driver *)

Lemma slice_stop_but_last {A : Type} (l : list A) :
  slice_stop l (-1) = take (length l - 1) l.
Proof.
  unfold slice_stop. simpl. f_equal. lia.
Qed.

Section Driver.
Context {n_dof : nat}.
Implicit Types (m : Model n_dof) (q : list (vec R n_dof)) (time : list R).

(** X11. On a trajectory of [N >= 1] samples with as many times, [main]
    returns three series of [N - 1] entries each: the times without the last
    one, in order, then what [discrete_total_energy] and what
    [discrete_angular_momentum] return under TRAPEZOIDAL, whose entry [i] is
    the evaluator on [(q_i, q_{i+1})] with the step [t_{i+1} - t_i]. *)
Theorem main_series_lengths m q time :
  (1 <= length q)%nat -> length time = length q ->
  exists times energy momentum,
    main m q time = Ok (times, energy, momentum) /\
    discrete_total_energy m q time (Member TRAPEZOIDAL) = Ok energy /\
    discrete_angular_momentum m q time (Member TRAPEZOIDAL) = Ok momentum /\
    length times = (length q - 1)%nat /\
    length energy = (length q - 1)%nat /\
    length momentum = (length q - 1)%nat /\
    (forall i, (i < length q - 1)%nat -> times !! i = time !! i) /\
    (forall i q_i q_i1 t_i t_i1,
       q !! i = Some q_i -> q !! S i = Some q_i1 ->
       time !! i = Some t_i -> time !! S i = Some t_i1 ->
       (exists e,
          discrete_total_energy_i m q_i q_i1 (t_i1 - t_i)%R (Member TRAPEZOIDAL)
            = Ok e /\
          energy !! i = Some e) /\
       (exists a,
          angular_momentum_i m q_i q_i1 (t_i1 - t_i)%R (Member TRAPEZOIDAL)
            = Ok a /\
          momentum !! i = Some a)).
Proof.
  intros Hq Htime. unfold main.
  destruct (loop_over_intervals
              (fun qa qb dt => discrete_total_energy_i m qa qb dt (Member TRAPEZOIDAL))
              q time) as (energy & He & Le & Hes); [|lia|exact Htime|].
  { intros qa qb dt. rewrite discrete_total_energy_i_member. eauto. }
  destruct (loop_over_intervals
              (fun qa qb dt => angular_momentum_i m qa qb dt (Member TRAPEZOIDAL))
              q time) as (momentum & Ha & La & Has); [|lia|exact Htime|].
  { intros qa qb dt. rewrite angular_momentum_i_member. eauto. }
  exists (slice_stop time (-1)), energy, momentum.
  assert (He' : discrete_total_energy m q time (Member TRAPEZOIDAL) = Ok energy)
    by exact He.
  assert (Ha' : discrete_angular_momentum m q time (Member TRAPEZOIDAL)
                = Ok momentum) by exact Ha.
  rewrite He', Ha'. cbn [bind].
  split; [reflexivity|]. split; [reflexivity|]. split; [reflexivity|].
  rewrite slice_stop_but_last, Htime.
  split; [rewrite length_take; lia|]. split; [exact Le|]. split; [exact La|].
  split; [intros i Hi; now apply lookup_take_lt|].
  intros i q_i q_i1 t_i t_i1 H1 H2 H3 H4.
  assert (Hi : (i < length q - 1)%nat).
  { apply lookup_lt_Some in H2. lia. }
  split.
  - destruct (Hes i Hi) as (e & Hs & Hout). exists e. split; [|exact Hout].
    unfold interval_sample in Hs. now rewrite H1, H2, H3, H4 in Hs.
  - destruct (Has i Hi) as (a & Hs & Hout). exists a. split; [|exact Hout].
    unfold interval_sample in Hs. now rewrite H1, H2, H3, H4 in Hs.
Qed.

(** X12. On a trajectory of exactly one sample [main] returns two empty
    series, while the [__main__] block, which also computes the drifts,
    raises IndexError; on a trajectory of no sample both raise ValueError. *)
Theorem driver_on_short_trajectories m (q_0 : vec R n_dof) time :
  main m [q_0] time = Ok (slice_stop time (-1), [], []) /\
  main_block m [q_0] time = Raise IndexError /\
  main m [] time = Raise ValueError /\
  main_block m [] time = Raise ValueError.
Proof. repeat split; reflexivity. Qed.

(** X13. On a trajectory of [N >= 2] samples with as many times, the
    [__main__] block returns the three series that [main] returns on the same
    coordinates and times, together with the two drifts. *)
Theorem main_block_repeats_main m q time times energy momentum :
  (2 <= length q)%nat -> length time = length q ->
  main m q time = Ok (times, energy, momentum) ->
  exists delta_energy delta_am,
    delta_total_energy m q time (Member TRAPEZOIDAL) = Ok delta_energy /\
    delta_angular_momentum m q time (Member TRAPEZOIDAL) = Ok delta_am /\
    main_block m q time = Ok (times, energy, momentum, delta_energy, delta_am).
Proof.
  intros Hq Htime Hmain. unfold main in Hmain.
  apply bind_Ok in Hmain as (energy' & He & Hmain).
  apply bind_Ok in Hmain as (momentum' & Ha & Hmain).
  injection Hmain as <- <- <-.
  destruct (four_ends q) as (q_0 & q_1 & q_a & q_b & H0 & H1 & Hqa & Hqb); [lia|].
  destruct (four_ends time) as (t_0 & t_1 & t_a & t_b & T0 & T1 & Ta & Tb); [lia|].
  unfold main_block. rewrite He, Ha. cbn [bind].
  rewrite delta_total_energy_shape, delta_angular_momentum_shape.
  rewrite !(end_minus_start_reads _ q time q_0 q_1 q_a q_b t_0 t_1 t_a t_b)
    by (assumption || lia).
  rewrite !discrete_total_energy_i_member, !angular_momentum_i_member.
  cbn [bind]. eexists _, _. repeat split; reflexivity.
Qed.
End Driver.

(** ** When the drift raises *)

Lemma end_minus_start_too_short {n_dof : nat}
    (evaluator : vec R n_dof -> vec R n_dof -> R -> result R)
    (q : list (vec R n_dof)) (time : list R) :
  (length q < 2)%nat \/ (length time < 2)%nat ->
  end_minus_start evaluator q time = Raise IndexError.
Proof.
  intros H. unfold end_minus_start.
  destruct q as [|q_0 [|q_1 q]]; [reflexivity|reflexivity|].
  destruct H as [H|H]; [simpl in H; lia|].
  rewrite (getitem_lookup (q_0 :: q_1 :: q) 0 q_0 eq_refl : getitem _ 0 = _),
    (getitem_lookup (q_0 :: q_1 :: q) 1 q_1 eq_refl : getitem _ 1 = _).
  cbn [bind].
  rewrite (getitem_nat_out_of_range time 1 : _ -> getitem time 1 = _) by lia.
  reflexivity.
Qed.

(** X14. With fewer than two samples or fewer than two times the drift
    functions raise IndexError, whatever the rule value: the indices are read
    before the rule is looked at. *)
Theorem drift_needs_two_samples_and_times {n_dof : nat} (m : Model n_dof)
    (q : list (vec R n_dof)) (time : list R) (rule : rule_value) :
  (length q < 2)%nat \/ (length time < 2)%nat ->
  delta_total_energy m q time rule = Raise IndexError /\
  delta_angular_momentum m q time rule = Raise IndexError.
Proof.
  intros H. rewrite delta_total_energy_shape, delta_angular_momentum_shape.
  split; apply end_minus_start_too_short; exact H.
Qed.

(** ** The properties at concrete trajectories *)

Lemma slider_energy_three :
  discrete_total_energy slider q_three time_three (Member TRAPEZOIDAL)
  = Ok [(11 / 2)%R; 22%R].
Proof. run_script. repeat f_equal; field; lra. Defined.

Lemma slider_momentum_three :
  discrete_angular_momentum slider q_three time_three (Member TRAPEZOIDAL)
  = Ok [1%R; 2%R].
Proof.
  run_script. f_equal. f_equal; [|f_equal].
  - sqrt_is 1%R. reflexivity.
  - sqrt_is 2%R. reflexivity.
Defined.

Lemma aggregator_output_length_witness :
  (1 <= length q_three)%nat /\
  length [(11 / 2)%R; 22%R] = (length q_three - 1)%nat.
Proof.
  apply (aggregator_output_length slider q_three time_three (Member TRAPEZOIDAL)).
  left. exact slider_energy_three.
Defined.

Lemma fewer_times_than_samples_witness :
  discrete_total_energy slider q_three time_two (Member TRAPEZOIDAL)
    = Raise IndexError /\
  discrete_angular_momentum slider q_three time_two (Member TRAPEZOIDAL)
    = Raise IndexError /\
  (exists d, delta_total_energy slider q_three time_two (Member TRAPEZOIDAL) = Ok d) /\
  (exists d, delta_angular_momentum slider q_three time_two (Member TRAPEZOIDAL)
             = Ok d).
Proof.
  apply (fewer_times_than_samples slider q_three time_two TRAPEZOIDAL);
    simpl; lia.
Defined.

Lemma unsupported_rule_propagates_witness :
  discrete_total_energy slider q_three time_three (NotARule "simpson")
    = Raise NotImplementedError /\
  discrete_angular_momentum slider q_three time_three (NotARule "simpson")
    = Raise NotImplementedError /\
  delta_total_energy slider q_three time_three (NotARule "simpson")
    = Raise NotImplementedError /\
  delta_angular_momentum slider q_three time_three (NotARule "simpson")
    = Raise NotImplementedError.
Proof.
  apply (unsupported_rule_propagates slider q_three time_three "simpson");
    simpl; lia.
Defined.

Lemma drift_reads_only_the_ends_witness :
  delta_total_energy slider q_three time_three (Member TRAPEZOIDAL) =
    delta_total_energy slider
      (take 2 q_three ++ drop (length q_three - 2) q_three)
      (take 2 time_three ++ drop (length time_three - 2) time_three)
      (Member TRAPEZOIDAL) /\
  delta_angular_momentum slider q_three time_three (Member TRAPEZOIDAL) =
    delta_angular_momentum slider
      (take 2 q_three ++ drop (length q_three - 2) q_three)
      (take 2 time_three ++ drop (length time_three - 2) time_three)
      (Member TRAPEZOIDAL).
Proof.
  apply (drift_reads_only_the_ends slider q_three time_three (Member TRAPEZOIDAL));
    simpl; lia.
Defined.

Lemma drift_is_last_minus_first_of_even_model_witness :
  exists e_first e_last a_first a_last,
    head [(11 / 2)%R; 22%R] = Some e_first /\
    last [(11 / 2)%R; 22%R] = Some e_last /\
    head [1%R; 2%R] = Some a_first /\ last [1%R; 2%R] = Some a_last /\
    delta_total_energy slider q_three time_three (Member TRAPEZOIDAL)
      = Ok (e_last - e_first)%R /\
    delta_angular_momentum slider q_three time_three (Member TRAPEZOIDAL)
      = Ok (a_last - a_first)%R.
Proof.
  apply (drift_is_last_minus_first_of_even_model slider q_three time_three
           TRAPEZOIDAL).
  - exact slider_even_in_velocity.
  - simpl. lia.
  - reflexivity.
  - exact slider_energy_three.
  - exact slider_momentum_three.
Defined.

Lemma two_samples_drift_of_even_model_witness :
  delta_total_energy slider [ [# 0%R]; [# 1%R] ] [0%R; 1%R] (Member MIDPOINT)
    = Ok 0%R /\
  delta_angular_momentum slider [ [# 0%R]; [# 1%R] ] [0%R; 1%R] (Member MIDPOINT)
    = Ok 0%R.
Proof.
  apply (two_samples_drift_of_even_model slider [# 0%R] [# 1%R] 0%R 1%R MIDPOINT).
  - exact slider_even_in_velocity.
  - lra.
Defined.

Lemma same_samples_all_rules_witness :
  discrete_total_energy_i slider [# 1%R] [# 1%R] 1 (Member LEFT_APPROXIMATION) =
    Ok (KineticEnergy slider [# 1%R] (at_rest 1) + PotentialEnergy slider [# 1%R])%R /\
  angular_momentum_i slider [# 1%R] [# 1%R] 1 (Member LEFT_APPROXIMATION) =
    Ok (norm (angularMomentum slider [# 1%R] (at_rest 1))).
Proof.
  apply (same_samples_all_rules slider [# 1%R] 1%R LEFT_APPROXIMATION). lra.
Defined.

Lemma aggregators_append_sample_witness :
  exists energy momentum e a,
    discrete_total_energy slider q_two time_two (Member TRAPEZOIDAL) = Ok energy /\
    discrete_angular_momentum slider q_two time_two (Member TRAPEZOIDAL)
      = Ok momentum /\
    discrete_total_energy_i slider [# 1%R] [# 3%R] (2 - 1)%R (Member TRAPEZOIDAL)
      = Ok e /\
    angular_momentum_i slider [# 1%R] [# 3%R] (2 - 1)%R (Member TRAPEZOIDAL)
      = Ok a /\
    discrete_total_energy slider (q_two ++ [ [# 3%R] ]) (time_two ++ [2%R])
      (Member TRAPEZOIDAL) = Ok (energy ++ [e]) /\
    discrete_angular_momentum slider (q_two ++ [ [# 3%R] ]) (time_two ++ [2%R])
      (Member TRAPEZOIDAL) = Ok (momentum ++ [a]).
Proof.
  apply (aggregators_append_sample slider q_two time_two TRAPEZOIDAL
           [# 1%R] [# 3%R] 1%R 2%R); reflexivity.
Defined.

Lemma main_series_lengths_witness :
  exists times energy momentum,
    main slider q_three time_three = Ok (times, energy, momentum) /\
    discrete_total_energy slider q_three time_three (Member TRAPEZOIDAL)
      = Ok energy /\
    discrete_angular_momentum slider q_three time_three (Member TRAPEZOIDAL)
      = Ok momentum /\
    length times = (length q_three - 1)%nat /\
    length energy = (length q_three - 1)%nat /\
    length momentum = (length q_three - 1)%nat /\
    (forall i, (i < length q_three - 1)%nat -> times !! i = time_three !! i) /\
    (forall i q_i q_i1 t_i t_i1,
       q_three !! i = Some q_i -> q_three !! S i = Some q_i1 ->
       time_three !! i = Some t_i -> time_three !! S i = Some t_i1 ->
       (exists e,
          discrete_total_energy_i slider q_i q_i1 (t_i1 - t_i)%R
            (Member TRAPEZOIDAL) = Ok e /\
          energy !! i = Some e) /\
       (exists a,
          angular_momentum_i slider q_i q_i1 (t_i1 - t_i)%R (Member TRAPEZOIDAL)
            = Ok a /\
          momentum !! i = Some a)).
Proof.
  apply (main_series_lengths slider q_three time_three).
  - simpl. lia.
  - reflexivity.
Defined.

Lemma main_block_repeats_main_witness :
  exists delta_energy delta_am,
    delta_total_energy slider q_three time_three (Member TRAPEZOIDAL)
      = Ok delta_energy /\
    delta_angular_momentum slider q_three time_three (Member TRAPEZOIDAL)
      = Ok delta_am /\
    main_block slider q_three time_three
      = Ok ([0%R; 1%R], [(11 / 2)%R; 22%R], [1%R; 2%R], delta_energy, delta_am).
Proof.
  apply (main_block_repeats_main slider q_three time_three).
  - simpl. lia.
  - reflexivity.
  - unfold main. rewrite slider_energy_three, slider_momentum_three. reflexivity.
Defined.

Lemma drift_needs_two_samples_and_times_witness :
  delta_total_energy slider q_three [0%R] (NotARule "simpson") = Raise IndexError /\
  delta_angular_momentum slider q_three [0%R] (NotARule "simpson")
    = Raise IndexError.
Proof.
  apply (drift_needs_two_samples_and_times slider q_three [0%R]
           (NotARule "simpson")).
  right. simpl. lia.
Defined.
